(** * University Support blueprint: handoff orchestration

    A shallow embedding of [blueprints/university/blueprint_university.py]:
    the finalisation and handoff functions of [UniversitySupportBlueprint]
    and the conversation loop of [execute], together with the part of
    Python's runtime they rely on ([dict], [in], [json.dumps]).

    Python values are restricted to the JSON fragment (None, bool, int,
    str, list, dict with string keys); characters are code points below 256.
    Floats are left out, and so are the calls of the logger.

    The executor [self.client.run] belongs to the swarm package; it is a
    parameter of the loop, a function from its own state and the three
    arguments of the call to a response or an exception.  The [while] loop
    has no bound on its turns, so it is run with fuel. *)

From Stdlib Require Import List String Ascii ZArith Bool Arith Lia.
From Stdlib Require Import DecimalString DecimalZ.
Import ListNotations.
Local Open Scope string_scope.
Local Open Scope list_scope.
Local Set Warnings "-register-all".

Infix "+++" := String.append (right associativity, at level 60).

(** ** Python values *)

(** A dict keeps insertion order, which [json.dumps] exposes, so it is an
    association list; its keys are strs. *)
Inductive value : Type :=
| VNone
| VBool (b : bool)
| VInt (z : Z)
| VStr (s : string)
| VList (l : list value)
| VDict (d : list (string * value)).

Definition pydict (V : Type) : Type := list (string * V).
Definition dict : Type := pydict value.

Module Dict.

(** [k in d] *)
Fixpoint mem {V} (k : string) (d : pydict V) : bool :=
  match d with
  | [] => false
  | (k', _) :: d' => if String.eqb k k' then true else mem k d'
  end.

(** [d.get(k)], [None] standing for Python's None. *)
Fixpoint get {V} (k : string) (d : pydict V) : option V :=
  match d with
  | [] => None
  | (k', v) :: d' => if String.eqb k k' then Some v else get k d'
  end.

(** [d.get(k, default)] *)
Definition get_default {V} (k : string) (default : V) (d : pydict V) : V :=
  match get k d with
  | Some v => v
  | None => default
  end.

(** [bool(d)]: a dict is truthy when it is not empty. *)
Definition truthy {V} (d : pydict V) : bool :=
  match d with
  | [] => false
  | _ :: _ => true
  end.

End Dict.

(** ** Exceptions *)

(** An exception instance of a subclass of [Exception]: its class and
    [str(e)]. *)
Record exn : Type := Exn { exn_class : string; exn_str : string }.

Definition TypeError (msg : string) : exn := Exn "TypeError" msg.
Definition EnvironmentError (msg : string) : exn := Exn "OSError" msg.

(** [type(v).__name__] *)
Definition type_name (v : value) : string :=
  match v with
  | VNone => "NoneType"
  | VBool _ => "bool"
  | VInt _ => "int"
  | VStr _ => "str"
  | VList _ => "list"
  | VDict _ => "dict"
  end.

(** ** Strings *)

Fixpoint is_prefix (p s : string) : bool :=
  match p, s with
  | EmptyString, _ => true
  | String a p', String b s' => if Ascii.eqb a b then is_prefix p' s' else false
  | String _ _, EmptyString => false
  end.

(** [needle in s] for two strs. *)
Fixpoint is_substring (needle s : string) : bool :=
  if is_prefix needle s then true
  else match s with
       | EmptyString => false
       | String _ s' => is_substring needle s'
       end.

(** [needle in v] for a str [needle]: substring test on a str, membership
    on a list, key membership on a dict, TypeError on anything else. *)
Definition py_in (needle : string) (v : value) : exn + bool :=
  match v with
  | VStr s => inr (is_substring needle s)
  | VList l =>
      inr (existsb (fun x => match x with
                             | VStr t => String.eqb needle t
                             | _ => false
                             end) l)
  | VDict d => inr (Dict.mem needle d)
  | _ => inl (TypeError ("argument of type '" +++ type_name v +++ "' is not iterable"))
  end.

(** [v == s] for a str [s]. *)
Definition py_eq_str (v : option value) (s : string) : bool :=
  match v with
  | Some (VStr t) => String.eqb t s
  | _ => false
  end.

(** ** [json.dumps]

    The default encoder: [ensure_ascii=True], item separator [", "], key
    separator [": "]. *)

Definition dquote : ascii := "034"%char.
Definition backslash : ascii := "092"%char.
Definition newline : ascii := "010"%char.

Definition hex_digit (n : nat) : ascii :=
  ascii_of_nat (if (n <? 10)%nat then 48 + n else 87 + n).

(** One character of [py_encode_basestring_ascii]: the short escapes of
    [ESCAPE_DCT], [\u00xx] for the other characters outside [' '..'~']. *)
Definition escape_char (c : ascii) : string :=
  let n := nat_of_ascii c in
  if (n =? 34)%nat then String backslash (String dquote EmptyString)
  else if (n =? 92)%nat then String backslash (String backslash EmptyString)
  else if (n =? 8)%nat then String backslash "b"
  else if (n =? 12)%nat then String backslash "f"
  else if (n =? 10)%nat then String backslash "n"
  else if (n =? 13)%nat then String backslash "r"
  else if (n =? 9)%nat then String backslash "t"
  else if ((n <? 32) || (126 <? n))%nat
       then String backslash
              (String "u" (String "0" (String "0"
                 (String (hex_digit (n / 16))
                    (String (hex_digit (n mod 16)) EmptyString)))))
  else String c EmptyString.

Fixpoint escape (s : string) : string :=
  match s with
  | EmptyString => EmptyString
  | String c s' => escape_char c +++ escape s'
  end.

Definition encode_str (s : string) : string :=
  String dquote (escape s +++ String dquote EmptyString).

(** [int.__repr__] *)
Definition encode_int (z : Z) : string :=
  DecimalString.NilZero.string_of_int (Z.to_int z).

Fixpoint json_dumps (v : value) : string :=
  match v with
  | VNone => "null"
  | VBool true => "true"
  | VBool false => "false"
  | VInt z => encode_int z
  | VStr s => encode_str s
  | VList l =>
      "[" +++ (fix items (l : list value) : string :=
                match l with
                | [] => "]"
                | [x] => json_dumps x +++ "]"
                | x :: l' => json_dumps x +++ ", " +++ items l'
                end) l
  | VDict d =>
      "{" +++ (fix members (d : list (string * value)) : string :=
                match d with
                | [] => "}"
                | [(k, x)] => encode_str k +++ ": " +++ json_dumps x +++ "}"
                | (k, x) :: d' =>
                    encode_str k +++ ": " +++ json_dumps x +++ ", " +++ members d'
                end) d
  end.

(** The bodies of the two local loops of [json_dumps]. *)
Definition dumps_items : list value -> string :=
  fix items (l : list value) : string :=
    match l with
    | [] => "]"
    | [x] => json_dumps x +++ "]"
    | x :: l' => json_dumps x +++ ", " +++ items l'
    end.

Definition dumps_members : list (string * value) -> string :=
  fix members (d : list (string * value)) : string :=
    match d with
    | [] => "}"
    | [(k, x)] => encode_str k +++ ": " +++ json_dumps x +++ "}"
    | (k, x) :: d' =>
        encode_str k +++ ": " +++ json_dumps x +++ ", " +++ members d'
    end.

(** A Python dict has no repeated key; [well_formed] says so of every dict
    inside a value. *)
Fixpoint unique_keys (ks : list string) : bool :=
  match ks with
  | [] => true
  | k :: ks' => negb (existsb (String.eqb k) ks') && unique_keys ks'
  end.

Fixpoint well_formed (v : value) : bool :=
  match v with
  | VList l =>
      (fix all (l : list value) : bool :=
         match l with
         | [] => true
         | x :: l' => well_formed x && all l'
         end) l
  | VDict d =>
      unique_keys (map fst d) &&
      (fix all (d : list (string * value)) : bool :=
         match d with
         | [] => true
         | (_, x) :: d' => well_formed x && all d'
         end) d
  | _ => true
  end.

Definition well_formed_items : list value -> bool :=
  fix all (l : list value) : bool :=
    match l with
    | [] => true
    | x :: l' => well_formed x && all l'
    end.

Definition well_formed_members : list (string * value) -> bool :=
  fix all (d : list (string * value)) : bool :=
    match d with
    | [] => true
    | (_, x) :: d' => well_formed x && all d'
    end.

(** Nesting measure that bounds the fuel the decoder needs. *)
Fixpoint size (v : value) : nat :=
  match v with
  | VList l =>
      S ((fix go (l : list value) : nat :=
            match l with
            | [] => 0
            | x :: l' => S (size x + go l')
            end) l)
  | VDict d =>
      S ((fix go (d : list (string * value)) : nat :=
            match d with
            | [] => 0
            | (_, x) :: d' => S (size x + go d')
            end) d)
  | _ => 0
  end.

Definition size_items : list value -> nat :=
  fix go (l : list value) : nat :=
    match l with
    | [] => 0
    | x :: l' => S (size x + go l')
    end.

Definition size_members : list (string * value) -> nat :=
  fix go (d : list (string * value)) : nat :=
    match d with
    | [] => 0
    | (_, x) :: d' => S (size x + go d')
    end.

(** ** Reading a payload back

    A decoder for the format [json_dumps] writes, used to speak of the
    fields of a payload string.  Like [json.loads], it keeps the last value
    of a repeated key. *)

Module Decode.

(** [d[k] = v] *)
Fixpoint set (k : string) (v : value) (d : dict) : dict :=
  match d with
  | [] => [(k, v)]
  | (k', v') :: d' =>
      if String.eqb k k' then (k, v) :: d' else (k', v') :: set k v d'
  end.

Definition of_items (items : list (string * value)) : dict :=
  fold_left (fun d kv => set (fst kv) (snd kv) d) items [].

Definition unhex (c : ascii) : option nat :=
  let n := nat_of_ascii c in
  if ((48 <=? n) && (n <=? 57))%nat then Some (n - 48)
  else if ((97 <=? n) && (n <=? 102))%nat then Some (n - 87)
  else if ((65 <=? n) && (n <=? 70))%nat then Some (n - 55)
  else None.

Definition push (c : ascii) (r : option (string * string)) : option (string * string) :=
  match r with
  | Some (str, rest) => Some (String c str, rest)
  | None => None
  end.

(** The characters of a string literal after its opening quote, and what
    follows the closing quote. *)
Fixpoint scan_string (s : string) : option (string * string) :=
  match s with
  | EmptyString => None
  | String c s1 =>
      if Ascii.eqb c dquote then Some (EmptyString, s1)
      else if Ascii.eqb c backslash then
        match s1 with
        | EmptyString => None
        | String e s2 =>
            if Ascii.eqb e dquote then push dquote (scan_string s2)
            else if Ascii.eqb e backslash then push backslash (scan_string s2)
            else if Ascii.eqb e "/" then push "/" (scan_string s2)
            else if Ascii.eqb e "b" then push "008" (scan_string s2)
            else if Ascii.eqb e "f" then push "012" (scan_string s2)
            else if Ascii.eqb e "n" then push "010" (scan_string s2)
            else if Ascii.eqb e "r" then push "013" (scan_string s2)
            else if Ascii.eqb e "t" then push "009" (scan_string s2)
            else if Ascii.eqb e "u" then
              match s2 with
              | String a (String b (String h (String l s3))) =>
                  match unhex a, unhex b, unhex h, unhex l with
                  | Some 0, Some 0, Some x, Some y =>
                      push (ascii_of_nat (16 * x + y)) (scan_string s3)
                  | _, _, _, _ => None
                  end
              | _ => None
              end
            else None
        end
      else push c (scan_string s1)
  end.

Definition is_number_char (c : ascii) : bool :=
  let n := nat_of_ascii c in
  ((48 <=? n) && (n <=? 57) || (n =? 45))%nat.

Fixpoint span_number (s : string) : string * string :=
  match s with
  | EmptyString => (EmptyString, EmptyString)
  | String c s' =>
      if is_number_char c
      then let (d, r) := span_number s' in (String c d, r)
      else (EmptyString, s)
  end.

Definition scan_int (s : string) : option (value * string) :=
  let (d, r) := span_number s in
  match DecimalString.NilZero.int_of_string d with
  | Some i => Some (VInt (Z.of_int i), r)
  | None => None
  end.

Fixpoint strip_prefix (p s : string) : option string :=
  match p, s with
  | EmptyString, _ => Some s
  | String a p', String b s' => if Ascii.eqb a b then strip_prefix p' s' else None
  | String _ _, EmptyString => None
  end.

Fixpoint parse_value (fuel : nat) (s : string) {struct fuel} : option (value * string) :=
  match fuel with
  | O => None
  | S n =>
      match s with
      | EmptyString => None
      | String c s1 =>
          if Ascii.eqb c dquote then
            match scan_string s1 with
            | Some (str, r) => Some (VStr str, r)
            | None => None
            end
          else if Ascii.eqb c "[" then
            match strip_prefix "]" s1 with
            | Some r => Some (VList [], r)
            | None => match parse_items n s1 with
                      | Some (l, r) => Some (VList l, r)
                      | None => None
                      end
            end
          else if Ascii.eqb c "{" then
            match strip_prefix "}" s1 with
            | Some r => Some (VDict [], r)
            | None => match parse_members n s1 with
                      | Some (l, r) => Some (VDict (of_items l), r)
                      | None => None
                      end
            end
          else
            match strip_prefix "null" s with
            | Some r => Some (VNone, r)
            | None =>
            match strip_prefix "true" s with
            | Some r => Some (VBool true, r)
            | None =>
            match strip_prefix "false" s with
            | Some r => Some (VBool false, r)
            | None => scan_int s
            end end end
      end
  end

with parse_items (fuel : nat) (s : string) {struct fuel} : option (list value * string) :=
  match fuel with
  | O => None
  | S n =>
      match parse_value n s with
      | Some (v, r) =>
          match strip_prefix ", " r with
          | Some r1 =>
              match parse_items n r1 with
              | Some (l, r') => Some (v :: l, r')
              | None => None
              end
          | None =>
              match strip_prefix "]" r with
              | Some r2 => Some ([v], r2)
              | None => None
              end
          end
      | None => None
      end
  end

with parse_members (fuel : nat) (s : string) {struct fuel}
  : option (list (string * value) * string) :=
  match fuel with
  | O => None
  | S n =>
      match strip_prefix (String dquote EmptyString) s with
      | Some s1 =>
          match scan_string s1 with
          | Some (k, r0) =>
              match strip_prefix ": " r0 with
              | Some s2 =>
                  match parse_value n s2 with
                  | Some (v, r) =>
                      match strip_prefix ", " r with
                      | Some r1 =>
                          match parse_members n r1 with
                          | Some (l, r') => Some ((k, v) :: l, r')
                          | None => None
                          end
                      | None =>
                          match strip_prefix "}" r with
                          | Some r2 => Some ([(k, v)], r2)
                          | None => None
                          end
                      end
                  | None => None
                  end
              | None => None
              end
          | None => None
          end
      | None => None
      end
  end.

Definition json_loads (s : string) : option value :=
  match parse_value (S (String.length s)) s with
  | Some (v, EmptyString) => Some v
  | _ => None
  end.

End Decode.

(** The ["content"] and ["context_variables"] fields of a payload. *)
Definition payload_field (k : string) (payload : string) : option value :=
  match Decode.json_loads payload with
  | Some (VDict d) => Dict.get k d
  | _ => None
  end.

(** Shapes of the encoder's output, for the correctness of the decoder. *)

Fixpoint all_number (s : string) : bool :=
  match s with
  | EmptyString => true
  | String c s' => Decode.is_number_char c && all_number s'
  end.

Definition stops_number (s : string) : bool :=
  match s with
  | EmptyString => true
  | String c _ => negb (Decode.is_number_char c)
  end.

Definition opens_value (s : string) : bool :=
  match s with
  | EmptyString => false
  | String c _ => negb (Ascii.eqb c "]") && negb (Ascii.eqb c "}")
  end.

(** ** Agents and the blueprint *)

(** The bound methods [create_agents] hands to the agents; each takes the
    [context_variables] dictionary. *)
Inductive AgentFunction : Type :=
| triage_to_course_advisor
| triage_to_university_poet
| triage_to_scheduling_assistant
| course_advisor_finalise
| university_poet_finalise
| scheduling_assistant_finalise.

Module Agent.
Record t : Type := Build {
  name : string;
  instructions : string;
  functions : list AgentFunction;
  parallel_tool_calls : bool;
  mcp_servers : list string
}.
End Agent.

(** [self]: what the methods below read is [self.swarm.agents]. *)
Record Blueprint : Type := { swarm_agents : pydict Agent.t }.

Definition metadata : dict :=
  [ ("title", VStr "University Support System");
    ("description", VStr "Multi-agent system for university support using MCP tools.");
    ("required_mcp_servers", VList [VStr "sqlite"]);
    ("env_vars", VList [VStr "SQLITE_DB_PATH"]) ].

(** The functions and MCP servers [create_agents] attaches to an agent name. *)
Definition funcs (agent_name : string) : list AgentFunction :=
  if String.eqb agent_name "TriageAgent" then
    [triage_to_course_advisor; triage_to_university_poet; triage_to_scheduling_assistant]
  else if String.eqb agent_name "CourseAdvisor" then [course_advisor_finalise]
  else if String.eqb agent_name "UniversityPoet" then [university_poet_finalise]
  else if String.eqb agent_name "SchedulingAssistant" then [scheduling_assistant_finalise]
  else [].

Definition make_agent (agent_name instructions : string) : Agent.t :=
  {| Agent.name := agent_name;
     Agent.instructions := instructions;
     Agent.functions := funcs agent_name;
     Agent.parallel_tool_calls := true;
     Agent.mcp_servers :=
       if String.eqb agent_name "CourseAdvisor" || String.eqb agent_name "SchedulingAssistant"
       then ["sqlite"] else [] |}.

(** ** Finalisation functions *)

Definition closing_message : string :=
  "Thank you for using the University Support System. If you have more questions, feel free to reach out!".

Definition _finalise_response (context_variables : dict) : string :=
  json_dumps (VDict [ ("content", VStr closing_message);
                      ("context_variables", VDict context_variables) ]).

(** ** Handoff functions *)

Definition _triage_to_course_advisor (self : Blueprint) (context_variables : dict)
  : option Agent.t :=
  Dict.get "CourseAdvisor" (swarm_agents self).

Definition _triage_to_university_poet (self : Blueprint) (context_variables : dict)
  : option Agent.t :=
  Dict.get "UniversityPoet" (swarm_agents self).

Definition _triage_to_scheduling_assistant (self : Blueprint) (context_variables : dict)
  : option Agent.t :=
  Dict.get "SchedulingAssistant" (swarm_agents self).

Definition _course_advisor_finalise (context_variables : dict) : string :=
  json_dumps (VDict [ ("content", VStr (_finalise_response context_variables));
                      ("context_variables", VDict context_variables) ]).

Definition indent : string := "            ".

Definition _university_poet_haiku : string :=
  String newline
    (indent +++ "A student asks why," +++
     String newline
       (indent +++ "Campus calls with ancient tales," +++
        String newline
          (indent +++ "Wisdom finds its way." +++
           String newline indent))).

Definition _university_poet_finalise (context_variables : dict) : string :=
  if py_eq_str (Dict.get "response_haiku" context_variables) "true" then
    json_dumps (VDict [ ("content", VStr _university_poet_haiku);
                        ("context_variables", VDict context_variables) ])
  else
    json_dumps (VDict [ ("content", VStr (_finalise_response context_variables));
                        ("context_variables", VDict context_variables) ]).

Definition _scheduling_assistant_finalise (context_variables : dict) : string :=
  json_dumps (VDict [ ("content", VStr (_finalise_response context_variables));
                      ("context_variables", VDict context_variables) ]).

(** What an agent function returns: [Union[Agent, str]], the agent being
    [None] when the registry has no such entry. *)
Inductive FunctionResult : Type :=
| RAgent (a : option Agent.t)
| RStr (s : string).

Definition call_function (self : Blueprint) (f : AgentFunction)
    (context_variables : dict) : FunctionResult :=
  match f with
  | triage_to_course_advisor => RAgent (_triage_to_course_advisor self context_variables)
  | triage_to_university_poet => RAgent (_triage_to_university_poet self context_variables)
  | triage_to_scheduling_assistant =>
      RAgent (_triage_to_scheduling_assistant self context_variables)
  | course_advisor_finalise => RStr (_course_advisor_finalise context_variables)
  | university_poet_finalise => RStr (_university_poet_finalise context_variables)
  | scheduling_assistant_finalise => RStr (_scheduling_assistant_finalise context_variables)
  end.

(** ** The conversation loop of [execute] *)

(** What [self.client.run] returns; [execute] reads these three attributes.
    [agent] is [None] when the executor names no next agent. *)
Module Response.
Record t : Type := Build {
  messages : list value;
  agent : option Agent.t;
  context_variables : dict
}.
End Response.

(** The local variables of the [while] loop.  [active_agent] is an agent
    and never None inside the loop, so the loop test always holds. *)
Record Locals : Type := {
  active_agent : Agent.t;
  messages : list dict;
  context_variables : dict
}.

(** One call of [self.client.run]: its arguments and what came back. *)
Record Turn : Type := {
  turn_agent : Agent.t;
  turn_messages : list dict;
  turn_context : dict;
  turn_reply : exn + Response.t
}.

(** How one pass through the loop body ends. *)
Inductive Flow : Type :=
| Continue (st : Locals)
| Break (st : Locals)
| Return (result : dict)
| Raise (e : exn).

(** How the [while] loop ends: by [break], by the [return] in the
    [except] clause, or by an exception nothing catches. *)
Inductive Exit : Type :=
| Broke (st : Locals)
| Returns (result : dict)
| Raises (e : exn).

(** How a call of [execute] ends. *)
Inductive Outcome : Type :=
| Returned (result : dict)
| Uncaught (e : exn).

Definition sentinel : string := "Thank you for using the University Support System".

Definition failure (error : string) : dict :=
  [ ("status", VStr "failure"); ("error", VStr error); ("metadata", VDict metadata) ].

Definition success (messages : list dict) : dict :=
  [ ("status", VStr "success");
    ("messages", VList (map VDict messages));
    ("metadata", VDict metadata) ].

(** [isinstance(message, dict) and 'content' in message] *)
Definition has_content (message : value) : bool :=
  match message with
  | VDict d => Dict.mem "content" d
  | _ => false
  end.

(** The message as a dict when [has_content] holds of it. *)
Definition kept (message : value) : option dict :=
  match message with
  | VDict d => if has_content message then Some d else None
  | _ => None
  end.

(** The [for message in response.messages] loop. *)
Fixpoint append_messages (messages : list dict) (new : list value) : list dict :=
  match new with
  | [] => messages
  | message :: rest =>
      match kept message with
      | Some d => append_messages (messages ++ [d]) rest
      | None => append_messages messages rest
      end
  end.

(** [any(sentinel in msg.get('content', '') for msg in messages)]: stops at
    the first hit, and raises what [in] raises before one. *)
Fixpoint any_sentinel (messages : list dict) : exn + bool :=
  match messages with
  | [] => inr false
  | msg :: rest =>
      match py_in sentinel (Dict.get_default "content" (VStr EmptyString) msg) with
      | inl e => inl e
      | inr true => inr true
      | inr false => any_sentinel rest
      end
  end.

(** The environment [execute] reads before the loop. *)
Record Env : Type := {
  SQLITE_DB_PATH : option string;        (* os.getenv("SQLITE_DB_PATH") *)
  database_setup : option exn;           (* what _ensure_database_setup re-raises *)
  user_input : exn + string              (* input(...) *)
}.

Definition validate_env_vars (env : Env) : option exn :=
  match SQLITE_DB_PATH env with
  | None | Some EmptyString =>
      Some (EnvironmentError "SQLITE_DB_PATH environment variable is required.")
  | Some _ => None
  end.

(** [_ensure_database_setup] touches only the file system and SQLite, and
    re-raises every exception it catches. *)
Definition _ensure_database_setup (env : Env) : option exn := database_setup env.

(** The messages of a response that the [for] loop appends. *)
Fixpoint kept_messages (new : list value) : list dict :=
  match new with
  | [] => []
  | message :: rest =>
      match kept message with
      | Some d => d :: kept_messages rest
      | None => kept_messages rest
      end
  end.

(** What the executor produced in a turn, and what of it is appended. *)
Definition produced (t : Turn) : list value :=
  match turn_reply t with
  | inr response => Response.messages response
  | inl _ => []
  end.

Definition new_messages (t : Turn) : list dict := kept_messages (produced t).

(** The successive values of [messages]: at each call of the executor and,
    after a [break], at the end of the loop. *)
Definition transcripts (ts : list Turn) (ex : Exit) : list (list dict) :=
  map turn_messages ts ++
  match ex with
  | Broke st => [messages st]
  | _ => []
  end.

(** What [execute] does once the loop has ended: the [return] after the
    loop on a [break], the result already returned from inside the loop, or
    the exception passing through. *)
Definition outcome_of (ex : Exit) : Outcome :=
  match ex with
  | Broke st' => Returned (success (messages st'))
  | Returns result => Returned result
  | Raises e => Uncaught e
  end.

Definition user_message (user_query : string) : dict :=
  [("role", VStr "user"); ("content", VStr user_query)].

Section Execute.

(** The external executor, [self.client.run(agent=, messages=,
    context_variables=)]: it returns a response or raises, and may keep
    state of its own between calls. *)
Variable World : Type.
Variable client_run :
  World -> Agent.t -> list dict -> dict -> (exn + Response.t) * World.

Definition turn_of (st : Locals) (reply : exn + Response.t) : Turn :=
  {| turn_agent := active_agent st;
     turn_messages := messages st;
     turn_context := context_variables st;
     turn_reply := reply |}.

(** What follows the call of [client.run] in the loop body. *)
Definition after_run (st : Locals) (reply : exn + Response.t) : Flow :=
  match reply with
  | inl e => Return (failure ("Error during interaction: " +++ exn_str e))
  | inr response =>
      let messages := append_messages (messages st) (Response.messages response) in
      match Response.agent response with
      | Some agent =>
          Continue
            {| active_agent := agent;
               messages := messages;
               context_variables :=
                 if Dict.truthy (Response.context_variables response)
                 then Response.context_variables response
                 else context_variables st |}
      | None =>
          let st' := {| active_agent := active_agent st;
                        messages := messages;
                        context_variables := context_variables st |} in
          match any_sentinel messages with
          | inl e => Raise e
          | inr true => Break st'
          | inr false => Break st'
          end
      end
  end.

Definition loop_body (w : World) (st : Locals) : Flow * Turn * World :=
  let (reply, w') :=
    client_run w (active_agent st) (messages st) (context_variables st) in
  (after_run st reply, turn_of st reply, w').

(** [while active_agent: ...]; [None] when [fuel] passes do not reach the
    end of the loop.  The turns are listed in the order they were made. *)
Fixpoint while_loop (fuel : nat) (w : World) (st : Locals)
  : option (Exit * list Turn * World) :=
  match fuel with
  | O => None
  | S fuel' =>
      let '(fl, t, w') := loop_body w st in
      match fl with
      | Continue st' =>
          match while_loop fuel' w' st' with
          | Some (ex, ts, w'') => Some (ex, t :: ts, w'')
          | None => None
          end
      | Break st' => Some (Broke st', [t], w')
      | Return result => Some (Returns result, [t], w')
      | Raise e => Some (Raises e, [t], w')
      end
  end.

(** The same loop as a relation: [Run w st ts ex w'] when the loop entered
    with locals [st] makes the turns [ts] and ends with [ex]. *)
Inductive Run : World -> Locals -> list Turn -> Exit -> World -> Prop :=
| Run_break w st st' t w' :
    loop_body w st = (Break st', t, w') -> Run w st [t] (Broke st') w'
| Run_return w st result t w' :
    loop_body w st = (Return result, t, w') -> Run w st [t] (Returns result) w'
| Run_raise w st e t w' :
    loop_body w st = (Raise e, t, w') -> Run w st [t] (Raises e) w'
| Run_continue w st st' t w1 ts ex w' :
    loop_body w st = (Continue st', t, w1) ->
    Run w1 st' ts ex w' -> Run w st (t :: ts) ex w'.

(** The locals on entry to the loop. *)
Definition initial (starting_agent : Agent.t) (user_query : string) : Locals :=
  {| active_agent := starting_agent;
     messages := [ user_message user_query ];
     context_variables := [] |}.

Definition execute (fuel : nat) (self : Blueprint) (env : Env) (w : World)
  : option (Outcome * list Turn * World) :=
  match validate_env_vars env with
  | Some e => Some (Returned (failure (exn_str e)), [], w)
  | None =>
  match _ensure_database_setup env with
  | Some e => Some (Uncaught e, [], w)
  | None =>
  match user_input env with
  | inl _ => Some (Returned (failure "Failed to receive user input."), [], w)
  | inr user_query =>
  match Dict.get "TriageAgent" (swarm_agents self) with
  | None => Some (Returned (failure "TriageAgent not found."), [], w)
  | Some starting_agent =>
      match while_loop fuel w (initial starting_agent user_query) with
      | None => None
      | Some (ex, ts, w') => Some (outcome_of ex, ts, w')
      end
  end end end end.

End Execute.

Arguments loop_body {World} client_run w st.
Arguments while_loop {World} client_run fuel w st.
Arguments Run {World} client_run _ _ _ _ _.
Arguments execute {World} client_run fuel self env w.

(** An executor that plays back a fixed list of replies, for running the
    loop on concrete sessions. *)
Definition scripted (w : list (exn + Response.t)) (agent : Agent.t)
    (messages : list dict) (context_variables : dict)
  : (exn + Response.t) * list (exn + Response.t) :=
  match w with
  | [] => (inl (Exn "RuntimeError" "no reply"), [])
  | reply :: w' => (reply, w')
  end.

(** The registry [create_agents] leaves when every [Agent(...)] succeeds. *)
Definition university_agents (instructions : string -> string) : pydict Agent.t :=
  map (fun n => (n, make_agent n (instructions n)))
      ["TriageAgent"; "CourseAdvisor"; "UniversityPoet"; "SchedulingAssistant"].

(** ** Notions used in the statements *)

Definition names_agent (response : Response.t) : bool :=
  match Response.agent response with
  | Some _ => true
  | None => false
  end.

(** The same response with other context variables. *)
Definition with_context (response : Response.t) (c : dict) : Response.t :=
  {| Response.messages := Response.messages response;
     Response.agent := Response.agent response;
     Response.context_variables := c |}.

(** A message on whose content [in] does not raise: a str, a list, a dict,
    or no content at all. *)
Definition iterable_content (msg : dict) : bool :=
  match Dict.get "content" msg with
  | Some (VStr _) | Some (VList _) | Some (VDict _) | None => true
  | Some _ => false
  end.

(** The locals after a turn at [st] whose response names no agent. *)
Definition after_last_turn (st : Locals) (r : Response.t) : Locals :=
  {| active_agent := active_agent st;
     messages := messages st ++ kept_messages (Response.messages r);
     context_variables := context_variables st |}.

(** The content of the last message of a transcript. *)
Definition last_content (transcript : list dict) : option value :=
  match rev transcript with
  | [] => None
  | msg :: _ => Dict.get "content" msg
  end.

(** Some message of the response has the payload as its content. *)
Definition reports (r : Response.t) (payload : string) : Prop :=
  exists msg, In (VDict msg) (Response.messages r)
              /\ Dict.get "content" msg = Some (VStr payload).

(** A tool call made during a session passes the current context
    variables to the function. *)
Definition invoke (self : Blueprint) (st : Locals) (f : AgentFunction) : FunctionResult :=
  call_function self f (context_variables st).

(** The registry key a handoff function looks up. *)
Definition target (f : AgentFunction) : option string :=
  match f with
  | triage_to_course_advisor => Some "CourseAdvisor"
  | triage_to_university_poet => Some "UniversityPoet"
  | triage_to_scheduling_assistant => Some "SchedulingAssistant"
  | _ => None
  end.

(** [result] holds [v] under some key. *)
Definition carries (result : dict) (v : value) : Prop := In v (map snd result).

(** A result that tells success from failure and holds the transcript and
    the context map. *)
Definition structured_result (out : Outcome) (transcript : list dict) (context : dict)
  : Prop :=
  exists result,
    out = Returned result
    /\ (Dict.get "status" result = Some (VStr "success")
        \/ Dict.get "status" result = Some (VStr "failure"))
    /\ carries result (VList (map VDict transcript))
    /\ carries result (VDict context).

(** ** A concrete session *)

Definition loaded_instructions (agent_name : string) : string :=
  "You are the " +++ agent_name +++ ".".

Definition demo_blueprint : Blueprint :=
  {| swarm_agents := university_agents loaded_instructions |}.

Definition demo_query : string := "What courses are available in biology?".

Definition demo_env : Env :=
  {| SQLITE_DB_PATH := Some "/tmp/test.db";
     database_setup := None;
     user_input := inr demo_query |}.

Definition TriageAgent : Agent.t :=
  make_agent "TriageAgent" (loaded_instructions "TriageAgent").
Definition CourseAdvisor : Agent.t :=
  make_agent "CourseAdvisor" (loaded_instructions "CourseAdvisor").

Definition assistant_message (content : string) : value :=
  VDict [("role", VStr "assistant"); ("content", VStr content)].

Definition tool_message (tool_name content : string) : value :=
  VDict [("role", VStr "tool"); ("tool_name", VStr tool_name); ("content", VStr content)].

Definition demo_context : dict := [("topic", VStr "biology")].

(** The dispatcher hands off to the course advisor. *)
Definition handoff_response : Response.t :=
  {| Response.messages := [assistant_message "Handing off to the course advisor."];
     Response.agent := Some CourseAdvisor;
     Response.context_variables := demo_context |}.
Definition handoff_reply : exn + Response.t := inr handoff_response.

(** The course advisor calls its finalise function; the executor reports
    the returned payload as a tool message and names no next agent. *)
Definition final_response : Response.t :=
  {| Response.messages :=
       [tool_message "_course_advisor_finalise" (_course_advisor_finalise demo_context)];
     Response.agent := None;
     Response.context_variables := [("done", VBool true)] |}.
Definition final_reply : exn + Response.t := inr final_response.

(** The same, with a closing message of the model after the tool message. *)
Definition final_and_answer_response : Response.t :=
  {| Response.messages :=
       [tool_message "_course_advisor_finalise" (_course_advisor_finalise demo_context);
        assistant_message "You are welcome."];
     Response.agent := None;
     Response.context_variables := [("done", VBool true)] |}.
Definition final_and_answer_reply : exn + Response.t := inr final_and_answer_response.

Definition connection_lost : exn := Exn "RuntimeError" "connection lost".
Definition failing_reply : exn + Response.t := inl connection_lost.

(** A plain answer: no handoff, no tool call. *)
Definition plain_response : Response.t :=
  {| Response.messages := [assistant_message "Biology 101 is available."];
     Response.agent := None;
     Response.context_variables := [] |}.
Definition plain_reply : exn + Response.t := inr plain_response.

(** The locals at the first and the second turn of the session, and the
    messages the two turns append. *)
Definition demo_st0 : Locals := initial TriageAgent demo_query.

Definition handoff_message : dict :=
  [("role", VStr "assistant"); ("content", VStr "Handing off to the course advisor.")].

Definition payload_message : dict :=
  [("role", VStr "tool"); ("tool_name", VStr "_course_advisor_finalise");
   ("content", VStr (_course_advisor_finalise demo_context))].

Definition demo_st1 : Locals :=
  {| active_agent := CourseAdvisor;
     messages := [user_message demo_query; handoff_message];
     context_variables := demo_context |}.

Definition demo_st2 : Locals :=
  {| active_agent := CourseAdvisor;
     messages := [user_message demo_query; handoff_message; payload_message];
     context_variables := demo_context |}.

Definition demo_turns : list Turn :=
  [turn_of demo_st0 handoff_reply; turn_of demo_st1 final_reply].

(** ** Traces of a session *)

(** The context variables after a turn that began with [c]: those of the
    response when it names an agent and they are a non-empty dict. *)
Definition updated_context (c : dict) (t : Turn) : dict :=
  match turn_reply t with
  | inr r =>
      if names_agent r && Dict.truthy (Response.context_variables r)
      then Response.context_variables r
      else c
  | inl _ => c
  end.

Definition context_after (c : dict) (ts : list Turn) : dict :=
  fold_left updated_context ts c.

(** The response of a turn carries a non-empty context. *)
Definition brings_context (t : Turn) : bool :=
  match turn_reply t with
  | inr r => names_agent r && Dict.truthy (Response.context_variables r)
  | inl _ => false
  end.

(** An executor without state that hands off to the same agent for ever. *)
Definition always_handoff (w : unit) (agent : Agent.t) (messages : list dict)
    (context_variables : dict) : (exn + Response.t) * unit :=
  (handoff_reply, tt).

(** ** The sentinel test *)

(** The test [any] makes on one message. *)
Definition sentinel_in (msg : dict) : exn + bool :=
  py_in sentinel (Dict.get_default "content" (VStr EmptyString) msg).

(** ** Characters of a payload *)

(** A character from [' '] to ['~']. *)
Definition printable (c : ascii) : bool :=
  let n := nat_of_ascii c in ((32 <=? n) && (n <=? 126))%nat.

Fixpoint all_printable (s : string) : bool :=
  match s with
  | EmptyString => true
  | String c s' => printable c && all_printable s'
  end.

(** ** Paths *)

Module Path.

Definition is_slash (c : ascii) : bool := Ascii.eqb c "/".

Fixpoint has_slash (s : string) : bool :=
  match s with
  | EmptyString => false
  | String c s' => is_slash c || has_slash s'
  end.

Fixpoint all_slashes (s : string) : bool :=
  match s with
  | EmptyString => true
  | String c s' => is_slash c && all_slashes s'
  end.

(** [p[:p.rfind('/') + 1]] *)
Fixpoint upto_last_slash (p : string) : string :=
  match p with
  | EmptyString => EmptyString
  | String c p' =>
      if has_slash p' then String c (upto_last_slash p')
      else if is_slash c then String c EmptyString
      else EmptyString
  end.

(** [s.rstrip('/')] *)
Fixpoint rstrip_slashes (s : string) : string :=
  match s with
  | EmptyString => EmptyString
  | String c s' =>
      match rstrip_slashes s' with
      | EmptyString => if is_slash c then EmptyString else String c EmptyString
      | r => String c r
      end
  end.

(** [posixpath.dirname] *)
Definition dirname (p : string) : string :=
  let head := upto_last_slash p in
  match head with
  | EmptyString => head
  | String _ _ => if all_slashes head then head else rstrip_slashes head
  end.

Fixpoint ends_with_slash (s : string) : bool :=
  match s with
  | EmptyString => false
  | String c EmptyString => is_slash c
  | String _ s' => ends_with_slash s'
  end.

Definition starts_with_slash (s : string) : bool :=
  match s with
  | EmptyString => false
  | String c _ => is_slash c
  end.

(** [posixpath.join(a, b)] *)
Definition join (a b : string) : string :=
  if starts_with_slash b then b
  else match a with
       | EmptyString => a +++ b
       | String _ _ => if ends_with_slash a then a +++ b else a +++ "/" +++ b
       end.

End Path.

(** ** The host: files and SQLite *)

(** The calls [_ensure_database_setup] makes that act on the world. *)
Inductive Op : Type :=
| makedirs (path : string)               (* os.makedirs(db_dir, exist_ok=True) *)
| connect (database : string)            (* sqlite3.connect(sqlite_db_path) *)
| cursor                                 (* conn.cursor() *)
| execute_sql (sql : string)             (* cursor.execute(...) *)
| read_file (path : string)              (* open(path, 'r') and f.read() *)
| executescript (script : string)        (* cursor.executescript(sample_data) *)
| commit                                 (* conn.commit() *)
| close.                                 (* conn.close() *)

(** The world the blueprint runs in, with state [W]: the two tests of
    [os.path], the text of a file or the exception reading it raises, and
    the effect of an operation, which may raise.  A test or a read leaves
    the world as it is.  [blueprint_dir] is [os.path.dirname(__file__)]. *)
Record Host (W : Type) : Type := {
  isfile : W -> string -> bool;
  isdir : W -> string -> bool;
  read : W -> string -> exn + string;
  perform : W -> Op -> option exn * W;
  blueprint_dir : string
}.

Arguments isfile {W} h w path : rename.
Arguments isdir {W} h w path : rename.
Arguments read {W} h w path : rename.
Arguments perform {W} h w op : rename.
Arguments blueprint_dir {W} h : rename.

(** A computation that may raise, with the operations it attempted, the
    raising one included. *)
Definition Setup (W A : Type) : Type := W -> (exn + A) * list Op * W.

Definition ret {W A} (a : A) : Setup W A := fun w => (inr a, [], w).

Definition raise {W A} (e : exn) : Setup W A := fun w => (inl e, [], w).

Definition bind {W A B} (m : Setup W A) (k : A -> Setup W B) : Setup W B :=
  fun w =>
    match m w with
    | (inl e, ops, w1) => (inl e, ops, w1)
    | (inr a, ops, w1) =>
        match k a w1 with
        | (r, ops', w2) => (r, ops ++ ops', w2)
        end
    end.

Notation "x <- m ;; k" := (bind m (fun x => k))
  (at level 61, m at next level, right associativity).
Notation "m ;;; k" := (bind m (fun _ => k))
  (at level 61, right associativity).

Definition test {W} (f : W -> bool) : Setup W bool := fun w => (inr (f w), [], w).

Definition op {W} (h : Host W) (o : Op) : Setup W unit :=
  fun w =>
    match perform h w o with
    | (Some e, w1) => (inl e, [o], w1)
    | (None, w1) => (inr tt, [o], w1)
    end.

Definition read_text {W} (h : Host W) (path : string) : Setup W string :=
  fun w => (read h w path, [read_file path], w).

(** ** [_ensure_database_setup] *)

Definition SCHEDULER_TABLE : string := "schedules".
Definition COURSE_ADVISOR_TABLE : string := "courses".

(** The lines of a text joined by line feeds. *)
Fixpoint lines (l : list string) : string :=
  match l with
  | [] => EmptyString
  | [x] => x
  | x :: l' => x +++ String newline (lines l')
  end.

Definition create_courses_sql : string :=
  lines
    [ EmptyString;
      "                    CREATE TABLE IF NOT EXISTS " +++ COURSE_ADVISOR_TABLE +++ " (";
      "                        id INTEGER PRIMARY KEY AUTOINCREMENT,";
      "                        course_name TEXT NOT NULL,";
      "                        description TEXT NOT NULL,";
      "                        discipline TEXT NOT NULL";
      "                    );";
      "                " ].

Definition create_schedules_sql : string :=
  lines
    [ EmptyString;
      "                    CREATE TABLE IF NOT EXISTS " +++ SCHEDULER_TABLE +++ " (";
      "                        id INTEGER PRIMARY KEY AUTOINCREMENT,";
      "                        course_name TEXT NOT NULL,";
      "                        class_time TEXT NOT NULL,";
      "                        exam_date TEXT NOT NULL";
      "                    );";
      "                " ].

Module Database.

(** [sqlite_db_path] is [os.getenv("SQLITE_DB_PATH")].  [os.path.isfile]
    raises TypeError on None.  Every [except] clause re-raises, so the
    exception of the first failing operation passes through. *)
Definition _ensure_database_setup {W} (h : Host W) (sqlite_db_path : option string)
  : Setup W unit :=
  match sqlite_db_path with
  | None =>
      raise (TypeError
               "stat: path should be string, bytes, os.PathLike or integer, not NoneType")
  | Some sqlite_db_path =>
      db_exists <- test (fun w => isfile h w sqlite_db_path) ;;
      if db_exists then ret tt
      else
        let db_dir := Path.dirname sqlite_db_path in
        missing <- test (fun w => match db_dir with
                                  | EmptyString => false
                                  | String _ _ => negb (isdir h w db_dir)
                                  end) ;;
        (if missing then op h (makedirs db_dir) else ret tt) ;;;
        op h (connect sqlite_db_path) ;;;
        op h cursor ;;;
        op h (execute_sql create_courses_sql) ;;;
        op h (execute_sql create_schedules_sql) ;;;
        let sample_data_path := Path.join (blueprint_dir h) "sample_data.sql" in
        sample_there <- test (fun w => isfile h w sample_data_path) ;;
        (if sample_there
         then sample_data <- read_text h sample_data_path ;;
              op h (executescript sample_data)
         else ret tt) ;;;
        op h commit ;;;
        op h close
  end.

End Database.

(** The operations of a setup that creates the database, when each is
    attempted: with or without the directory, with or without the sample
    data. *)
Definition setup_plan (sqlite_db_path : string) (db_dir : option string)
    (sample : option (string * string)) : list Op :=
  match db_dir with
  | Some d => [makedirs d]
  | None => []
  end
  ++ [ connect sqlite_db_path; cursor;
       execute_sql create_courses_sql; execute_sql create_schedules_sql ]
  ++ match sample with
     | Some (path, script) => [read_file path; executescript script]
     | None => []
     end
  ++ [commit; close].

(** The directory the setup creates first, if any: the one of the database
    path, when it is not empty and not a directory yet. *)
Definition planned_dir {W} (h : Host W) (w : W) (sqlite_db_path : string)
  : option string :=
  match Path.dirname sqlite_db_path with
  | EmptyString => None
  | String _ _ as db_dir => if isdir h w db_dir then None else Some db_dir
  end.

Definition sample_data_path {W} (h : Host W) : string :=
  Path.join (blueprint_dir h) "sample_data.sql".

(** Operation [o] raised [e] in some state of the world. *)
Definition raised_by {W} (h : Host W) (o : Op) (e : exn) : Prop :=
  (exists w1 w2, perform h w1 o = (Some e, w2))
  \/ (exists w1 path, o = read_file path /\ read h w1 path = inl e).

(** [l1] is [l2] or the start of it. *)
Definition is_start_of {A} (l1 l2 : list A) : Prop := exists rest, l2 = l1 ++ rest.

(** ** [create_agents] *)

Definition hardcoded_instructions : pydict string :=
  [ ("TriageAgent",
       "You are the Triage Agent, responsible for analysing user queries and directing them to the appropriate specialised agent. " +++
       "Evaluate the content and intent of each query to determine whether it pertains to course recommendations, campus culture, or scheduling assistance. " +++
       "Provide a brief reasoning before making the handoff to ensure transparency in your decision-making process. " +++
       "If a handoff is required, use the appropriate tool call for the target agent, such as `triage_to_course_advisor`, `triage_to_university_poet`, or `triage_to_scheduling_assistant`." +++
       "If the user says they want a haiku, you should set the 'response_haiku' variable to 'true'");
    ("CourseAdvisor",
       "You are the Course Advisor, dedicated to providing personalised course recommendations based on the user's academic interests and goals. " +++
       "Engage the user with insightful questions to understand their preferences, such as preferred disciplines, desired career paths, and previous coursework. " +++
       "Offer detailed explanations for each recommended course, highlighting how they align with the user's objectives. " +++
       "You have access to a tool named `read_query` which can be used to query data from an sqlite database, to better inform your advice, especially on what courses are available.");
    ("UniversityPoet",
       "You are the University Poet, tasked with responding to queries about campus culture, events, and social activities in the form of creative haikus. " +++
       "Embrace a poetic and imaginative approach to provide concise and aesthetically pleasing responses that capture the essence of the university's vibrant community.");
    ("SchedulingAssistant",
       "You are the Scheduling Assistant, responsible for managing and providing information about class schedules, exam dates, and important academic timelines. " +++
       "Interact with the user to ascertain their specific scheduling needs, such as course timings, exam schedules, and deadline dates. " +++
       "Offer clear, concise, and factual information to help users effectively plan their academic activities. " +++
       "You have access to a tool named `read_query` which can be used to query data from an sqlite database, to better inform your advice, especially on class schedules.") ].

(** [agent_name.replace(" ", "_")] *)
Fixpoint replace_spaces (s : string) : string :=
  match s with
  | EmptyString => EmptyString
  | String c s' => String (if Ascii.eqb c " " then "_"%char else c) (replace_spaces s')
  end.

Definition instruction_path {W} (h : Host W) (agent_name : string) : string :=
  Path.join (blueprint_dir h) ("instructions_" +++ replace_spaces agent_name +++ ".txt").

(** The file's text; the empty str when there is no such file or reading
    it raises. *)
Definition load_instructions {W} (h : Host W) (w : W) (agent_name : string) : string :=
  let instruction_path := instruction_path h agent_name in
  if isfile h w instruction_path then
    match read h w instruction_path with
    | inr instructions => instructions
    | inl _ => EmptyString
    end
  else EmptyString.

(** The instructions an agent is created with: [if not instructions] falls
    back to the hard-coded text. *)
Definition instructions_for {W} (h : Host W) (w : W)
    (agent_name default_instructions : string) : string :=
  match load_instructions h w agent_name with
  | EmptyString => default_instructions
  | instructions => instructions
  end.

Section CreateAgents.

Context {W : Type}.

(** [Agent(...)] followed by [self.swarm.create_agent(agent)], both of the
    swarm package: the registry afterwards, or the exception raised, which
    the loop logs before it goes on with the next agent. *)
Variable create_agent : pydict Agent.t -> Agent.t -> exn + pydict Agent.t.

Definition create_one (h : Host W) (w : W) (registry : pydict Agent.t)
    (entry : string * string) : pydict Agent.t :=
  let (agent_name, default_instructions) := entry in
  let instructions := instructions_for h w agent_name default_instructions in
  match create_agent registry (make_agent agent_name instructions) with
  | inr registry' => registry'
  | inl _ => registry
  end.

Definition create_agents (h : Host W) (w : W) (self : Blueprint) : Blueprint :=
  {| swarm_agents := fold_left (create_one h w) hardcoded_instructions (swarm_agents self) |}.

End CreateAgents.

(** ** [interactive_mode] *)

(** How [interactive_mode] ends: the exception it lets through if any, and
    the agent the demo loop was started with if it was started. *)
Record Interactive (W : Type) : Type := {
  raised : option exn;
  operations : list Op;
  started_with : option Agent.t;
  world_after : W
}.

Arguments raised {W} _.
Arguments operations {W} _.
Arguments started_with {W} _.
Arguments world_after {W} _.

(** [run_demo_loop] is the swarm package's REPL; what it raises is caught
    and logged. *)
Definition interactive_mode {W} (h : Host W)
    (run_demo_loop : W -> Agent.t -> option exn * W)
    (self : Blueprint) (sqlite_db_path : option string) (w : W) : Interactive W :=
  match Database._ensure_database_setup h sqlite_db_path w with
  | (inl e, ops, w1) =>
      {| raised := Some e; operations := ops; started_with := None; world_after := w1 |}
  | (inr _, ops, w1) =>
      match Dict.get "TriageAgent" (swarm_agents self) with
      | None =>
          {| raised := None; operations := ops; started_with := None; world_after := w1 |}
      | Some starting_agent =>
          {| raised := None; operations := ops; started_with := Some starting_agent;
             world_after := snd (run_demo_loop w1 starting_agent) |}
      end
  end.

(** The environment of [execute] in a host: the database setup does what
    [Database._ensure_database_setup] does in it. *)
Definition env_in {W} (h : Host W) (w : W) (sqlite_db_path : option string)
    (user_input : exn + string) : Env :=
  {| SQLITE_DB_PATH := sqlite_db_path;
     database_setup :=
       match Database._ensure_database_setup h sqlite_db_path w with
       | (inl e, _, _) => Some e
       | (inr _, _, _) => None
       end;
     user_input := user_input |}.

Fixpoint has_space (s : string) : bool :=
  match s with
  | EmptyString => false
  | String c s' => Ascii.eqb c " " || has_space s'
  end.

(** [create_agent] adds the agent to the registry under its name when [ok]
    accepts the name, and raises otherwise. *)
Definition registers_when (ok : string -> bool)
    (create_agent : pydict Agent.t -> Agent.t -> exn + pydict Agent.t) : Prop :=
  forall registry agent,
    if ok (Agent.name agent)
    then create_agent registry agent = inr (registry ++ [(Agent.name agent, agent)])
    else exists e, create_agent registry agent = inl e.

(** The registry entry of an agent created from an entry of
    [hardcoded_instructions]. *)
Definition created {W} (h : Host W) (w : W) (entry : string * string)
  : string * Agent.t :=
  (fst entry, make_agent (fst entry) (instructions_for h w (fst entry) (snd entry))).

(** ** A concrete host *)

Definition demo_db_path : string := "/tmp/test.db".

Definition demo_sample_data : string :=
  "INSERT INTO courses (course_name, description, discipline) " +++
  "VALUES ('Biology 101', 'Cells and organisms', 'Biology');".

Definition is_connect (database : string) (o : Op) : bool :=
  match o with
  | connect d => String.eqb d database
  | _ => false
  end.

Definition is_makedirs (path : string) (o : Op) : bool :=
  match o with
  | makedirs d => String.eqb d path
  | _ => false
  end.

(** A host whose state is the list of the operations performed so far: a
    database file is there once it was connected to, a directory once it
    was made.  The blueprint's directory holds the sample data and no
    instruction file.  [raises] tells which operations raise. *)
Definition host_where (raises : Op -> option exn) : Host (list Op) :=
  {| isfile := fun w path =>
       String.eqb path "/app/sample_data.sql" || existsb (is_connect path) w;
     isdir := fun w path => existsb (is_makedirs path) w;
     read := fun w path =>
       if String.eqb path "/app/sample_data.sql" then inr demo_sample_data
       else inl (Exn "FileNotFoundError" path);
     perform := fun w o =>
       match raises o with
       | Some e => (Some e, w)
       | None => (None, w ++ [o])
       end;
     blueprint_dir := "/app" |}.

Definition demo_host : Host (list Op) := host_where (fun _ => None).

Definition disk_error : exn := Exn "OperationalError" "disk I/O error".

(** The same host with a disk on which no statement can be executed. *)
Definition failing_host : Host (list Op) :=
  host_where (fun o => match o with
                       | execute_sql _ => Some disk_error
                       | _ => None
                       end).

(** The operations of a first setup in [demo_host]. *)
Definition demo_ops : list Op :=
  [ makedirs "/tmp"; connect demo_db_path; cursor;
    execute_sql create_courses_sql; execute_sql create_schedules_sql;
    read_file "/app/sample_data.sql"; executescript demo_sample_data;
    commit; close ].

(** The state of [demo_host] afterwards: reading the sample data is no
    operation of the host. *)
Definition demo_world_after : list Op :=
  [ makedirs "/tmp"; connect demo_db_path; cursor;
    execute_sql create_courses_sql; execute_sql create_schedules_sql;
    executescript demo_sample_data; commit; close ].

(** A [create_agent] that registers the agents [ok] accepts and raises on
    the others. *)
Definition register (ok : string -> bool) (registry : pydict Agent.t) (agent : Agent.t)
  : exn + pydict Agent.t :=
  if ok (Agent.name agent) then inr (registry ++ [(Agent.name agent, agent)])
  else inl (Exn "ValueError" ("cannot create " +++ Agent.name agent)).

Definition not_triage (agent_name : string) : bool :=
  negb (String.eqb agent_name "TriageAgent").

(** A demo loop that returns at once. *)
Definition quiet_demo_loop (w : list Op) (starting_agent : Agent.t)
  : option exn * list Op := (None, w).

(** * Properties *)

(** ** Strings *)

Lemma append_assoc (a b c : string) : (a +++ b) +++ c = a +++ (b +++ c).
Proof.
  induction a as [|x a IH]; simpl; [reflexivity|].
  now rewrite IH.
Qed.

Lemma append_nil_r (a : string) : a +++ EmptyString = a.
Proof.
  induction a as [|x a IH]; simpl; [reflexivity|].
  now rewrite IH.
Qed.

Lemma length_append (a b : string) :
  String.length (a +++ b) = String.length a + String.length b.
Proof.
  induction a as [|x a IH]; simpl; [reflexivity|].
  now rewrite IH.
Qed.

(** ** The decoder inverts [json_dumps] *)

Lemma scan_escape_char (c : ascii) (rest : string) :
  Decode.scan_string (escape_char c +++ rest) = Decode.push c (Decode.scan_string rest).
Proof.
  destruct c as [[] [] [] [] [] [] [] []]; reflexivity.
Qed.

Lemma scan_escape (s rest : string) :
  Decode.scan_string (escape s +++ String dquote rest) = Some (s, rest).
Proof.
  induction s as [|c s IH]; simpl.
  - reflexivity.
  - rewrite append_assoc, scan_escape_char, IH. reflexivity.
Qed.

Lemma all_number_uint (d : Decimal.uint) :
  all_number (NilEmpty.string_of_uint d) = true.
Proof.
  induction d; simpl; auto.
Qed.

Lemma to_uint_nonnil (p : positive) : Pos.to_uint p <> Decimal.Nil.
Proof.
  intros H. pose proof (DecimalPos.Unsigned.of_to p) as E.
  rewrite H in E. discriminate E.
Qed.

Lemma encode_int_chars (z : Z) :
  all_number (encode_int z) = true /\ encode_int z <> EmptyString.
Proof.
  unfold encode_int.
  destruct z as [|p|p]; simpl.
  - split; [reflexivity|discriminate].
  - pose proof (to_uint_nonnil p) as Hn.
    pose proof (all_number_uint (Pos.to_uint p)) as Ha.
    destruct (Pos.to_uint p); try congruence; simpl in *; (split; [assumption|discriminate]).
  - pose proof (to_uint_nonnil p) as Hn.
    pose proof (all_number_uint (Pos.to_uint p)) as Ha.
    destruct (Pos.to_uint p); try congruence; simpl in *; (split; [assumption|discriminate]).
Qed.

Lemma span_number_app (d rest : string) :
  all_number d = true -> stops_number rest = true ->
  Decode.span_number (d +++ rest) = (d, rest).
Proof.
  intros Hd Hr. induction d as [|c d IH]; simpl in *.
  - destruct rest as [|c r]; [reflexivity|].
    simpl in *. now destruct (Decode.is_number_char c).
  - apply andb_prop in Hd as [Hc Hd]. rewrite Hc, (IH Hd). reflexivity.
Qed.

Lemma int_of_encode_int (z : Z) :
  option_map Z.of_int (NilZero.int_of_string (encode_int z)) = Some z.
Proof.
  unfold encode_int. rewrite NilZero.isi.
  - simpl. now rewrite DecimalZ.of_to.
  - destruct z; simpl; try discriminate.
    intros [= H]. now apply to_uint_nonnil in H.
  - destruct z; simpl; try discriminate.
    intros [= H]. now apply to_uint_nonnil in H.
Qed.

Lemma scan_encode_int (z : Z) (rest : string) :
  stops_number rest = true ->
  Decode.scan_int (encode_int z +++ rest) = Some (VInt z, rest).
Proof.
  intros Hr. unfold Decode.scan_int.
  rewrite span_number_app by (try apply encode_int_chars; assumption).
  pose proof (int_of_encode_int z) as H.
  destruct (NilZero.int_of_string (encode_int z)); simpl in H; [|discriminate].
  now injection H as ->.
Qed.

Lemma number_char_dispatch (c : ascii) (s : string) (n : nat) :
  Decode.is_number_char c = true ->
  Decode.parse_value (S n) (String c s) = Decode.scan_int (String c s)
  /\ opens_value (String c s) = true.
Proof.
  destruct c as [[] [] [] [] [] [] [] []]; intros H; try discriminate H;
    split; reflexivity.
Qed.

Lemma opens_value_dumps (v : value) (rest : string) :
  opens_value (json_dumps v +++ rest) = true.
Proof.
  destruct v as [| [] | z | s | l | d]; try reflexivity.
  destruct (encode_int_chars z) as [Ha Hn]. simpl.
  destruct (encode_int z) as [|c e]; [congruence|].
  simpl in Ha. apply andb_prop in Ha as [Hc _].
  apply (number_char_dispatch c (e +++ rest) 0 Hc).
Qed.

Lemma strip_closing_none (close : string) (s : string) :
  (close = "]" \/ close = "}") -> opens_value s = true ->
  Decode.strip_prefix close s = None.
Proof.
  intros [-> | ->] Ho; (destruct s as [|c s]; [discriminate|]);
    destruct c as [[] [] [] [] [] [] [] []]; try discriminate Ho; reflexivity.
Qed.

Lemma dumps_items_cons (x : value) (l : list value) :
  dumps_items (x :: l) =
  json_dumps x +++ match l with [] => "]" | _ :: _ => ", " +++ dumps_items l end.
Proof. destruct l; reflexivity. Qed.

Lemma dumps_members_cons (k : string) (x : value) (d : list (string * value)) :
  dumps_members ((k, x) :: d) =
  encode_str k +++ ": " +++ json_dumps x +++
    match d with [] => "}" | _ :: _ => ", " +++ dumps_members d end.
Proof. destruct d; reflexivity. Qed.

Lemma set_fresh (k : string) (v : value) (d : dict) :
  Dict.mem k d = false -> Decode.set k v d = d ++ [(k, v)].
Proof.
  induction d as [|[k' v'] d IH]; simpl; intros H; [reflexivity|].
  destruct (String.eqb k k'); [discriminate|].
  now rewrite IH.
Qed.

Lemma mem_app_single (k k' : string) (v : value) (d : dict) :
  Dict.mem k (d ++ [(k', v)]) = Dict.mem k d || String.eqb k k'.
Proof.
  induction d as [|[k0 v0] d IH]; simpl.
  - now destruct (String.eqb k k').
  - destruct (String.eqb k k0); [reflexivity|apply IH].
Qed.

Lemma fold_set_fresh (items acc : dict) :
  forallb (fun k => negb (Dict.mem k acc)) (map fst items) = true ->
  unique_keys (map fst items) = true ->
  fold_left (fun d kv => Decode.set (fst kv) (snd kv) d) items acc = acc ++ items.
Proof.
  revert acc. induction items as [|[k v] items IH]; intros acc Hd Hu; simpl in *.
  - now rewrite app_nil_r.
  - apply andb_prop in Hd as [Hk Hd]. apply andb_prop in Hu as [Hn Hu].
    rewrite set_fresh by now destruct (Dict.mem k acc).
    rewrite IH; [now rewrite <- app_assoc| |assumption].
    rewrite forallb_forall in *. intros k' Hin.
    rewrite mem_app_single, (proj1 (negb_true_iff _) (Hd k' Hin)). simpl.
    destruct (String.eqb k' k) eqn:E; [|reflexivity].
    apply String.eqb_eq in E. subst k'.
    apply negb_true_iff in Hn.
    assert (existsb (String.eqb k) (map fst items) = true) as Hex
      by (apply existsb_exists; exists k; split; [assumption|apply String.eqb_refl]).
    congruence.
Qed.

Lemma of_items_unique (d : dict) :
  unique_keys (map fst d) = true -> Decode.of_items d = d.
Proof.
  intros Hu. unfold Decode.of_items. rewrite fold_set_fresh; auto.
  apply forallb_forall. reflexivity.
Qed.

Lemma strip_prefix_app (p s : string) : Decode.strip_prefix p (p +++ s) = Some s.
Proof.
  induction p as [|c p IH]; simpl; [reflexivity|].
  now rewrite Ascii.eqb_refl.
Qed.

Lemma scan_encode_str (s rest : string) :
  Decode.scan_string (escape s +++ String dquote EmptyString +++ rest) = Some (s, rest).
Proof. apply scan_escape. Qed.

Lemma parse_dumps (n : nat) :
  (forall v rest, size v < n -> well_formed v = true -> stops_number rest = true ->
     Decode.parse_value n (json_dumps v +++ rest) = Some (v, rest))
  /\ (forall l rest, l <> [] -> size_items l < n -> well_formed_items l = true ->
        Decode.parse_items n (dumps_items l +++ rest) = Some (l, rest))
  /\ (forall d rest, d <> [] -> size_members d < n -> well_formed_members d = true ->
        Decode.parse_members n (dumps_members d +++ rest) = Some (d, rest)).
Proof.
  induction n as [|n (IHv & IHl & IHd)].
  - repeat split.
    + intros v rest H. inversion H.
    + intros [|x l] rest Hne H; [congruence|inversion H].
    + intros [|[k x] d] rest Hne H; [congruence|inversion H].
  - repeat split.
    + intros v rest Hs Hw Hr.
      destruct v as [| [] | z | s | l | d]; try reflexivity.
      * (* int *)
        destruct (encode_int_chars z) as [Ha Hn].
        change (json_dumps (VInt z)) with (encode_int z).
        rewrite <- (scan_encode_int z rest Hr).
        destruct (encode_int z) as [|c e]; [congruence|].
        simpl in Ha. apply andb_prop in Ha as [Hc _].
        apply (number_char_dispatch c (e +++ rest) n Hc).
      * (* str *)
        change (json_dumps (VStr s) +++ rest)
          with (String dquote ((escape s +++ String dquote EmptyString) +++ rest)).
        rewrite append_assoc. cbn [Decode.parse_value].
        change (Ascii.eqb dquote dquote) with true. cbv iota.
        now rewrite scan_encode_str.
      * (* list *)
        destruct l as [|x l]; [reflexivity|].
        change (json_dumps (VList (x :: l)) +++ rest)
          with (String "[" (dumps_items (x :: l) +++ rest)).
        cbn [Decode.parse_value].
        change (Ascii.eqb "[" dquote) with false.
        change (Ascii.eqb "[" "[") with true. cbv iota.
        rewrite strip_closing_none;
          [|now left|rewrite dumps_items_cons, append_assoc; apply opens_value_dumps].
        rewrite IHl; [reflexivity|discriminate| |exact Hw].
        change (size (VList (x :: l))) with (S (size_items (x :: l))) in Hs. lia.
      * (* dict *)
        destruct d as [|[k x] d]; [reflexivity|].
        change (json_dumps (VDict ((k, x) :: d)) +++ rest)
          with (String "{" (dumps_members ((k, x) :: d) +++ rest)).
        cbn [Decode.parse_value].
        change (Ascii.eqb "{" dquote) with false.
        change (Ascii.eqb "{" "[") with false.
        change (Ascii.eqb "{" "{") with true. cbv iota.
        rewrite strip_closing_none;
          [|now right|rewrite dumps_members_cons; reflexivity].
        change (well_formed (VDict ((k, x) :: d)))
          with (unique_keys (map fst ((k, x) :: d)) && well_formed_members ((k, x) :: d)) in Hw.
        apply andb_prop in Hw as [Hu Hw].
        rewrite IHd; [now rewrite of_items_unique|discriminate| |exact Hw].
        change (size (VDict ((k, x) :: d))) with (S (size_members ((k, x) :: d))) in Hs. lia.
    + intros [|x l] rest Hne Hs Hw; [congruence|].
      rewrite dumps_items_cons, append_assoc.
      change (size_items (x :: l)) with (S (size x + size_items l)) in Hs.
      change (well_formed_items (x :: l)) with (well_formed x && well_formed_items l) in Hw.
      apply andb_prop in Hw as [Hx Hw].
      cbn [Decode.parse_items].
      destruct l as [|y l].
      * rewrite IHv; [reflexivity|lia|assumption|reflexivity].
      * rewrite IHv; [|lia|assumption|reflexivity].
        rewrite append_assoc, (strip_prefix_app ", ").
        rewrite IHl; [reflexivity|discriminate|lia|assumption].
    + intros [|[k x] d] rest Hne Hs Hw; [congruence|].
      rewrite dumps_members_cons.
      change (size_members ((k, x) :: d)) with (S (size x + size_members d)) in Hs.
      change (well_formed_members ((k, x) :: d))
        with (well_formed x && well_formed_members d) in Hw.
      apply andb_prop in Hw as [Hx Hw].
      assert (Hshape : forall tail,
                 (encode_str k +++ ": " +++ json_dumps x +++ tail) +++ rest =
                 String dquote EmptyString +++ escape k +++ String dquote EmptyString +++
                   ": " +++ json_dumps x +++ tail +++ rest).
      { intros tail. unfold encode_str. simpl.
        rewrite !append_assoc. simpl. now rewrite !append_assoc. }
      rewrite Hshape. cbn [Decode.parse_members].
      rewrite (strip_prefix_app (String dquote EmptyString)).
      rewrite scan_encode_str, (strip_prefix_app ": ").
      destruct d as [|[k' y] d].
      * rewrite IHv; [reflexivity|lia|assumption|reflexivity].
      * rewrite IHv; [|lia|assumption|reflexivity].
        rewrite append_assoc, (strip_prefix_app ", ").
        rewrite IHd; [reflexivity|discriminate|lia|assumption].
Qed.

Lemma size_le_length :
  forall n v, size v <= n -> size v <= String.length (json_dumps v).
Proof.
  induction n as [|n IH]; intros v Hs.
  - lia.
  - destruct v as [| b | z | s | l | d]; try (simpl; lia).
    + change (size (VList l)) with (S (size_items l)) in *.
      change (json_dumps (VList l)) with (String "[" (dumps_items l)).
      simpl String.length. apply le_n_S.
      assert (Hl : size_items l <= n) by lia. clear Hs.
      induction l as [|x l IHl]; [simpl; lia|].
      rewrite dumps_items_cons, length_append.
      change (size_items (x :: l)) with (S (size x + size_items l)) in *.
      assert (size x <= String.length (json_dumps x)) by (apply IH; lia).
      destruct l as [|y l]; [simpl; lia|].
      rewrite length_append.
      assert (size_items (y :: l) <= String.length (dumps_items (y :: l)))
        by (apply IHl; lia).
      simpl String.length in *. lia.
    + change (size (VDict d)) with (S (size_members d)) in *.
      change (json_dumps (VDict d)) with (String "{" (dumps_members d)).
      simpl String.length. apply le_n_S.
      assert (Hl : size_members d <= n) by lia. clear Hs.
      induction d as [|[k x] d IHd]; [simpl; lia|].
      rewrite dumps_members_cons, !length_append.
      change (size_members ((k, x) :: d)) with (S (size x + size_members d)) in *.
      assert (size x <= String.length (json_dumps x)) by (apply IH; lia).
      destruct d as [|[k' y] d]; [simpl; lia|].
      rewrite length_append.
      assert (size_members ((k', y) :: d) <= String.length (dumps_members ((k', y) :: d)))
        by (apply IHd; lia).
      simpl String.length in *. lia.
Qed.

(** Decoding what [json.dumps] wrote gives the value back. *)
Lemma json_loads_dumps (v : value) :
  well_formed v = true -> Decode.json_loads (json_dumps v) = Some v.
Proof.
  intros Hw. unfold Decode.json_loads.
  pose proof (size_le_length (size v) v (le_n _)) as Hs.
  destruct (parse_dumps (S (String.length (json_dumps v)))) as (Hv & _ & _).
  specialize (Hv v EmptyString).
  rewrite append_nil_r in Hv. rewrite Hv; [reflexivity|lia|assumption|reflexivity].
Qed.

(** ** The conversation loop *)

Lemma append_messages_app (ms : list dict) (new : list value) :
  append_messages ms new = ms ++ kept_messages new.
Proof.
  revert ms. induction new as [|m new IH]; intros ms; simpl.
  - now rewrite app_nil_r.
  - destruct (kept m); rewrite IH; [now rewrite <- app_assoc|reflexivity].
Qed.

Lemma kept_messages_filter (new : list value) :
  map VDict (kept_messages new) = filter has_content new.
Proof.
  induction new as [|m new IH]; simpl; [reflexivity|].
  destruct m as [| | | | |d]; simpl; try exact IH.
  destruct (Dict.mem "content" d); simpl; now rewrite IH.
Qed.

Section Loop.

Variable World : Type.
Variable client_run :
  World -> Agent.t -> list dict -> dict -> (exn + Response.t) * World.

Lemma loop_body_eq (w : World) (st : Locals) :
  loop_body client_run w st =
  (after_run st (fst (client_run w (active_agent st) (messages st) (context_variables st))),
   turn_of st (fst (client_run w (active_agent st) (messages st) (context_variables st))),
   snd (client_run w (active_agent st) (messages st) (context_variables st))).
Proof.
  unfold loop_body.
  now destruct (client_run w (active_agent st) (messages st) (context_variables st)).
Qed.

Lemma while_loop_Run (fuel : nat) :
  forall w st ex ts w',
    while_loop client_run fuel w st = Some (ex, ts, w') -> Run client_run w st ts ex w'.
Proof.
  induction fuel as [|fuel IH]; intros w st ex ts w' H; simpl in H; [discriminate|].
  destruct (loop_body client_run w st) as [[fl t] w1] eqn:E.
  destruct fl as [st'|st'|result|e].
  - destruct (while_loop client_run fuel w1 st') as [[[ex' ts'] w2]|] eqn:E'; [|discriminate].
    injection H as <- <- <-. eapply Run_continue; eauto.
  - injection H as <- <- <-. now apply Run_break.
  - injection H as <- <- <-. now apply Run_return.
  - injection H as <- <- <-. now apply Run_raise.
Qed.

Lemma Run_while_loop w st ts ex w' :
  Run client_run w st ts ex w' ->
  forall fuel, List.length ts <= fuel ->
               while_loop client_run fuel w st = Some (ex, ts, w').
Proof.
  induction 1 as [w st st' t w' E|w st result t w' E|w st e t w' E
                 |w st st' t w1 ts ex w' E _ IH];
    intros [|fuel] Hf; simpl in Hf; try lia; simpl; rewrite E; try reflexivity.
  rewrite IH by lia. reflexivity.
Qed.

(** The result of the loop does not depend on the fuel once there is
    enough of it. *)
Lemma while_loop_fuel fuel fuel' w st ex ts w' :
  while_loop client_run fuel w st = Some (ex, ts, w') ->
  List.length ts <= fuel' ->
  while_loop client_run fuel' w st = Some (ex, ts, w').
Proof.
  intros H Hf. apply while_loop_Run in H. now apply Run_while_loop.
Qed.

Lemma loop_body_turn w st fl t w' :
  loop_body client_run w st = (fl, t, w') ->
  fl = after_run st (turn_reply t)
  /\ t = turn_of st (turn_reply t)
  /\ client_run w (active_agent st) (messages st) (context_variables st)
     = (turn_reply t, w').
Proof.
  rewrite loop_body_eq.
  destruct (client_run w (active_agent st) (messages st) (context_variables st))
    as [reply w1].
  simpl. intros [= <- <- <-]. simpl. auto.
Qed.

Lemma after_run_Continue st reply st' :
  after_run st reply = Continue st' ->
  exists r a,
    reply = inr r /\ Response.agent r = Some a /\ active_agent st' = a
    /\ messages st' = messages st ++ kept_messages (Response.messages r)
    /\ context_variables st' =
       if Dict.truthy (Response.context_variables r)
       then Response.context_variables r else context_variables st.
Proof.
  unfold after_run. destruct reply as [e|r]; [discriminate|].
  destruct (Response.agent r) as [a|] eqn:Ea.
  - intros [= <-]. exists r, a. simpl. rewrite append_messages_app. auto.
  - destruct (any_sentinel _) as [e|[]]; discriminate.
Qed.

Lemma after_run_Break st reply st' :
  after_run st reply = Break st' ->
  exists r b,
    reply = inr r /\ Response.agent r = None
    /\ active_agent st' = active_agent st
    /\ messages st' = messages st ++ kept_messages (Response.messages r)
    /\ context_variables st' = context_variables st
    /\ any_sentinel (messages st') = inr b.
Proof.
  unfold after_run. destruct reply as [e|r]; [discriminate|].
  destruct (Response.agent r) as [a|] eqn:Ea; [discriminate|].
  destruct (any_sentinel _) as [e|b] eqn:Es; [discriminate|].
  rewrite append_messages_app in *.
  destruct b; intros [= <-]; exists r; eexists; simpl; eauto 10.
Qed.

Lemma after_run_Return st reply result :
  after_run st reply = Return result ->
  exists e, reply = inl e
            /\ result = failure ("Error during interaction: " +++ exn_str e).
Proof.
  unfold after_run. destruct reply as [e|r].
  - intros [= <-]. eauto.
  - destruct (Response.agent r); [discriminate|].
    destruct (any_sentinel _) as [e|[]]; discriminate.
Qed.

Lemma after_run_Raise st reply e :
  after_run st reply = Raise e ->
  exists r, reply = inr r /\ Response.agent r = None
            /\ any_sentinel (messages st ++ kept_messages (Response.messages r)) = inl e.
Proof.
  unfold after_run. destruct reply as [e'|r]; [discriminate|].
  destruct (Response.agent r) eqn:Ea; [discriminate|].
  rewrite append_messages_app.
  destruct (any_sentinel _) as [e'|[]] eqn:Es; try discriminate.
  intros [= <-]. eauto.
Qed.

(** The value of [messages] at each point of a run is the initial one
    followed by what the earlier turns appended, in turn order. *)
Lemma Run_transcripts w st ts ex w' :
  Run client_run w st ts ex w' ->
  forall i Ti,
    nth_error (transcripts ts ex) i = Some Ti ->
    Ti = messages st ++ flat_map new_messages (firstn i ts).
Proof.
  induction 1 as [w st st' t w' E|w st result t w' E|w st e t w' E
                 |w st st' t w1 ts ex w' E _ IH];
    intros i Ti Hi;
    apply loop_body_turn in E as (Hfl & Ht & _).
  - destruct i as [|[|i]]; simpl in Hi.
    + injection Hi as <-. rewrite Ht. simpl. now rewrite app_nil_r.
    + injection Hi as <-. symmetry in Hfl.
      apply after_run_Break in Hfl as (r & b & Hr & _ & _ & Hm & _).
      rewrite Hm. simpl. unfold new_messages, produced. rewrite Hr.
      now rewrite app_nil_r.
    + destruct i; discriminate.
  - destruct i as [|i]; simpl in Hi.
    + injection Hi as <-. rewrite Ht. simpl. now rewrite app_nil_r.
    + destruct i; discriminate.
  - destruct i as [|i]; simpl in Hi.
    + injection Hi as <-. rewrite Ht. simpl. now rewrite app_nil_r.
    + destruct i; discriminate.
  - destruct i as [|i]; simpl in Hi.
    + injection Hi as <-. rewrite Ht. simpl. now rewrite app_nil_r.
    + change (nth_error (transcripts ts ex) i = Some Ti) in Hi.
      rewrite (IH i Ti Hi). symmetry in Hfl.
      apply after_run_Continue in Hfl as (r & a & Hr & _ & _ & Hm & _).
      rewrite Hm. simpl. unfold new_messages at 2, produced. rewrite Hr.
      now rewrite app_assoc.
Qed.

(** A run ends at the first turn whose executor call raises, with the
    failure result built from the exception. *)
Lemma Run_error_last w st ts ex w' :
  Run client_run w st ts ex w' ->
  forall pre t post e,
    ts = pre ++ t :: post -> turn_reply t = inl e ->
    post = [] /\ ex = Returns (failure ("Error during interaction: " +++ exn_str e)).
Proof.
  induction 1 as [w st st' t0 w' E|w st result t0 w' E|w st e0 t0 w' E
                 |w st st' t0 w1 ts ex w' E _ IH];
    intros pre t post e Hts He;
    apply loop_body_turn in E as (Hfl & _ & _); symmetry in Hfl.
  - apply after_run_Break in Hfl as (r & b & Hr & _).
    destruct pre as [|x [|y pre]]; try discriminate.
    injection Hts as -> <-. congruence.
  - apply after_run_Return in Hfl as (e' & Hr & ->).
    destruct pre as [|x [|y pre]]; try discriminate.
    injection Hts as -> <-. split; [reflexivity|]. congruence.
  - apply after_run_Raise in Hfl as (r & Hr & _).
    destruct pre as [|x [|y pre]]; try discriminate.
    injection Hts as -> <-. congruence.
  - apply after_run_Continue in Hfl as (r & a & Hr & _).
    destruct pre as [|x pre].
    + injection Hts as -> <-. congruence.
    + injection Hts as -> ->. eapply IH; eauto.
Qed.

(** Either [execute] returns before the loop, having called the executor
    not at all, or it enters the loop with the TriageAgent. *)
Lemma execute_inv fuel self env w out ts w' :
  execute client_run fuel self env w = Some (out, ts, w') ->
  (ts = [] /\ w' = w /\
   (out = Returned (failure "SQLITE_DB_PATH environment variable is required.")
    \/ (exists e, out = Uncaught e /\ database_setup env = Some e)
    \/ out = Returned (failure "Failed to receive user input.")
    \/ out = Returned (failure "TriageAgent not found.")))
  \/ (exists starting_agent user_query ex,
        validate_env_vars env = None
        /\ database_setup env = None
        /\ user_input env = inr user_query
        /\ Dict.get "TriageAgent" (swarm_agents self) = Some starting_agent
        /\ while_loop client_run fuel w (initial starting_agent user_query)
           = Some (ex, ts, w')
        /\ out = outcome_of ex).
Proof.
  unfold execute, _ensure_database_setup.
  destruct (validate_env_vars env) as [e|] eqn:Ev.
  { intros [= <- <- <-]. left. repeat split. left.
    unfold validate_env_vars in Ev.
    destruct (SQLITE_DB_PATH env) as [[|]|]; try discriminate;
      now injection Ev as <-. }
  destruct (database_setup env) as [e|] eqn:Ed.
  { intros [= <- <- <-]. left. repeat split. right; left. eauto. }
  destruct (user_input env) as [e|q] eqn:Eu.
  { intros [= <- <- <-]. left. repeat split. auto. }
  destruct (Dict.get "TriageAgent" (swarm_agents self)) as [a|] eqn:Ea.
  2:{ intros [= <- <- <-]. left. repeat split. auto. }
  destruct (while_loop client_run fuel w (initial a q)) as [[[ex ts0] w0]|] eqn:El;
    [|discriminate].
  intros H. right. exists a, q, ex.
  destruct ex; injection H as <- <- <-; auto 10.
Qed.

Lemma Run_Broke w st ts st' w' :
  Run client_run w st ts (Broke st') w' ->
  messages st' = messages st ++ flat_map new_messages ts.
Proof.
  intros H.
  pose proof (Run_transcripts _ _ _ _ _ H (List.length ts) (messages st')) as HT.
  rewrite firstn_all in HT. apply HT.
  unfold transcripts. rewrite nth_error_app2; rewrite length_map; [|lia].
  now rewrite Nat.sub_diag.
Qed.

Lemma Run_Returns w st ts result w' :
  Run client_run w st ts (Returns result) w' ->
  exists e, result = failure ("Error during interaction: " +++ exn_str e).
Proof.
  intros H. remember (Returns result) as ex eqn:Ex.
  induction H as [w st st' t0 w' E|w st result0 t0 w' E|w st e0 t0 w' E
                 |w st st' t0 w1 ts ex w' E _ IH]; try discriminate; auto.
  injection Ex as ->.
  apply loop_body_turn in E as (Hfl & _ & _); symmetry in Hfl.
  apply after_run_Return in Hfl as (e & _ & ->). eauto.
Qed.

(** What [execute] returns: the success result with the whole transcript,
    or a failure result. *)
Lemma execute_Returned fuel self env w result ts w' :
  execute client_run fuel self env w = Some (Returned result, ts, w') ->
  (exists user_query,
      user_input env = inr user_query
      /\ result = success (user_message user_query :: flat_map new_messages ts))
  \/ (exists error, result = failure error).
Proof.
  intros H.
  apply execute_inv in H
    as [(_ & _ & [H|[(e & H & _)|[H|H]]])|(a & q & ex & _ & _ & Hq & _ & Hl & Ho)];
    try (injection H as ->; eauto); try discriminate.
  apply while_loop_Run in Hl. destruct ex as [st'|r|e]; simpl in Ho; try discriminate.
  - injection Ho as ->. left. exists q. split; [assumption|].
    now rewrite (Run_Broke _ _ _ _ _ Hl).
  - injection Ho as ->. right. apply Run_Returns in Hl as [e ->]. eauto.
Qed.

End Loop.

Lemma firstn_le_app {A} (l : list A) (i j : nat) :
  i <= j -> exists rest, firstn j l = firstn i l ++ rest.
Proof.
  revert i j. induction l as [|x l IH]; intros i j Hij.
  - exists []. now rewrite !firstn_nil.
  - destruct i as [|i]; simpl; [eauto|].
    destruct j as [|j]; [lia|]. simpl.
    destruct (IH i j ltac:(lia)) as [rest ->]. eauto.
Qed.

(** C7. The transcript is append-only across the iterations of the
    conversation loop: the value of [messages] at any point of a run is the
    initial transcript followed by what the earlier turns produced, in turn
    order; a later transcript extends an earlier one as a prefix, and every
    message of the earlier one is found unchanged at the same position. *)
Theorem transcript_append_only
    (World : Type)
    (client_run : World -> Agent.t -> list dict -> dict -> (exn + Response.t) * World)
    (fuel : nat) (w w' : World) (st : Locals) (ex : Exit) (ts : list Turn) :
  while_loop client_run fuel w st = Some (ex, ts, w') ->
  forall i Ti,
    nth_error (transcripts ts ex) i = Some Ti ->
    Ti = messages st ++ flat_map new_messages (firstn i ts)
    /\ forall j Tj,
         i <= j -> nth_error (transcripts ts ex) j = Some Tj ->
         (exists new, Tj = Ti ++ new)
         /\ (forall k m, nth_error Ti k = Some m -> nth_error Tj k = Some m).
Proof.
  intros H i Ti Hi. apply while_loop_Run in H.
  pose proof (Run_transcripts _ _ _ _ _ _ _ H) as HT.
  split; [now apply HT|].
  intros j Tj Hij Hj.
  assert (Hex : exists new, Tj = Ti ++ new).
  { rewrite (HT i Ti Hi), (HT j Tj Hj).
    destruct (firstn_le_app ts i j Hij) as [rest ->].
    rewrite flat_map_app, app_assoc. eauto. }
  split; [exact Hex|].
  destruct Hex as [new ->]. intros k m Hk.
  rewrite nth_error_app1; [assumption|].
  apply nth_error_Some. congruence.
Qed.

(** C2. An executor error is fatal: from any state of the loop, when the
    call of the executor raises [e], the loop makes that one call and no
    other and returns at once the result with status ["failure"] whose error
    is ["Error during interaction: "] followed by [str(e)]; and in every
    session the turn whose call raises is the last one and [execute] returns
    that failure result. *)
Theorem executor_error_is_fatal
    (World : Type)
    (client_run : World -> Agent.t -> list dict -> dict -> (exn + Response.t) * World)
    (w w1 : World) (st : Locals) (e : exn) :
  client_run w (active_agent st) (messages st) (context_variables st) = (inl e, w1) ->
  let result := failure ("Error during interaction: " +++ exn_str e) in
  (forall fuel,
     while_loop client_run (S fuel) w st = Some (Returns result, [turn_of st (inl e)], w1))
  /\ Dict.get "status" result = Some (VStr "failure")
  /\ Dict.get "error" result = Some (VStr ("Error during interaction: " +++ exn_str e))
  /\ (forall fuel self env w0 out ts w' pre t post,
        execute client_run fuel self env w0 = Some (out, ts, w') ->
        ts = pre ++ t :: post -> turn_reply t = inl e ->
        post = [] /\ out = Returned result).
Proof.
  intros H result. split; [|split; [|split]]; try reflexivity.
  - intros fuel. simpl. rewrite loop_body_eq, H. reflexivity.
  - intros fuel self env w0 out ts w' pre t post Hx Hts He.
    apply execute_inv in Hx as [(-> & _)|(a & q & ex & _ & _ & _ & _ & Hl & ->)].
    + now destruct pre.
    + apply while_loop_Run in Hl.
      destruct (Run_error_last _ _ _ _ _ _ _ Hl _ _ _ _ Hts He) as [Hp ->]. auto.
Qed.

(** C8. In a turn whose executor call returns [r], the locals after the
    turn hold [r]'s context variables when [r] names a next agent and its
    context variables are a non-empty dict, and the context variables from
    before the turn otherwise; a response naming an agent always continues
    the loop; and when [r] names no agent the turn ends the same way whatever
    context variables [r] carries, so they are discarded. *)
Theorem context_replaced_only_on_handoff
    (World : Type)
    (client_run : World -> Agent.t -> list dict -> dict -> (exn + Response.t) * World)
    (w w' : World) (st : Locals) (fl : Flow) (t : Turn) (r : Response.t) :
  loop_body client_run w st = (fl, t, w') ->
  turn_reply t = inr r ->
  (forall st', fl = Continue st' \/ fl = Break st' ->
     context_variables st' =
       if names_agent r && Dict.truthy (Response.context_variables r)
       then Response.context_variables r
       else context_variables st)
  /\ (names_agent r = true -> exists st', fl = Continue st')
  /\ (names_agent r = false ->
      (forall st', fl <> Continue st')
      /\ forall c, after_run st (inr (with_context r c)) = fl).
Proof.
  intros E Hr. apply loop_body_turn in E as (Hfl & _ & _).
  rewrite Hr in Hfl. unfold names_agent. split; [|split].
  - intros st' [H|H]; rewrite H in Hfl; symmetry in Hfl.
    + apply after_run_Continue in Hfl as (r' & a & [= <-] & Ha & _ & _ & Hc).
      rewrite Ha, Hc. reflexivity.
    + apply after_run_Break in Hfl as (r' & b & [= <-] & Ha & _ & _ & Hc & _).
      rewrite Ha, Hc. reflexivity.
  - intros Ha. unfold after_run in Hfl.
    destruct (Response.agent r); [eauto|discriminate].
  - intros Ha. unfold after_run in *. unfold with_context. simpl.
    destruct (Response.agent r); [discriminate|].
    split; [|intros c; now rewrite Hfl].
    intros st' ->. destruct (any_sentinel _) as [e|[]]; discriminate.
Qed.

Lemma filter_flat_map_new (ts : list Turn) :
  map VDict (flat_map new_messages ts)
  = flat_map (fun t => filter has_content (produced t)) ts.
Proof.
  induction ts as [|t ts IH]; [reflexivity|].
  cbn [flat_map]. rewrite map_app.
  f_equal; [apply kept_messages_filter|exact IH].
Qed.

(** C9. The [for] loop appends to the transcript exactly the produced
    messages that are dicts with a ['content'] key, in their order; the
    transcript [execute] returns is the user's message followed by those
    messages of every turn, so a produced message without a ['content'] key
    is dropped and every message of the returned transcript has one. *)
Theorem only_content_messages_appended
    (World : Type)
    (client_run : World -> Agent.t -> list dict -> dict -> (exn + Response.t) * World) :
  (forall ms new,
      map VDict (append_messages ms new) = map VDict ms ++ filter has_content new)
  /\ (forall fuel self env w result ts w' T,
        execute client_run fuel self env w = Some (Returned result, ts, w') ->
        Dict.get "messages" result = Some (VList T) ->
        (exists user_query,
            user_input env = inr user_query
            /\ T = VDict (user_message user_query)
                   :: flat_map (fun t => filter has_content (produced t)) ts)
        /\ forall m, In m T -> has_content m = true).
Proof.
  split.
  - intros ms new. now rewrite append_messages_app, map_app, kept_messages_filter.
  - intros fuel self env w result ts w' T Hx Hm.
    apply execute_Returned in Hx as [(q & Hq & ->)|(error & ->)]; [|discriminate].
    change (Some (VList (map VDict (user_message q :: flat_map new_messages ts)))
            = Some (VList T)) in Hm.
    assert (HT' : T = map VDict (user_message q :: flat_map new_messages ts))
      by (injection Hm; auto).
    rewrite HT'. clear HT' Hm T.
    assert (HT : map VDict (user_message q :: flat_map new_messages ts)
                 = VDict (user_message q)
                   :: flat_map (fun t => filter has_content (produced t)) ts)
      by (cbn [map]; f_equal; apply filter_flat_map_new).
    rewrite HT. split; [eauto|].
    intros m [<-|Hin]; [reflexivity|].
    apply in_flat_map in Hin as (t & _ & Hin).
    now apply filter_In in Hin.
Qed.

Example demo_session :
  execute scripted 2 demo_blueprint demo_env [handoff_reply; final_reply]
  = Some (Returned (success (messages demo_st2)), demo_turns, []).
Proof. vm_compute. reflexivity. Qed.

(** The sentinel test raises on a message whose content is None, and nothing
    in [execute] catches it. *)
Example none_content_raises :
  execute scripted 1 demo_blueprint demo_env
    [ inr {| Response.messages := [VDict [("role", VStr "assistant"); ("content", VNone)]];
             Response.agent := None;
             Response.context_variables := [] |} ]
  = Some (Uncaught (TypeError "argument of type 'NoneType' is not iterable"),
          [ turn_of demo_st0
              (inr {| Response.messages :=
                        [VDict [("role", VStr "assistant"); ("content", VNone)]];
                      Response.agent := None;
                      Response.context_variables := [] |}) ],
          []).
Proof. vm_compute. reflexivity. Qed.

(** C3, as stated, fails: when the executor raises in the second turn, the
    caller gets the failure result, which holds neither the transcript of
    two messages accumulated so far nor the context map. *)
Lemma failure_result_lacks_transcript :
  exists out ts w',
    execute scripted 2 demo_blueprint demo_env [handoff_reply; failing_reply]
    = Some (out, ts, w')
    /\ ts = [turn_of demo_st0 handoff_reply; turn_of demo_st1 failing_reply]
    /\ out = Returned (failure "Error during interaction: connection lost")
    /\ ~ structured_result out (messages demo_st1) (context_variables demo_st1).
Proof.
  eexists _, _, _. split; [vm_compute; reflexivity|].
  split; [reflexivity|]. split; [reflexivity|].
  intros (result & [= <-] & _ & _ & Hc).
  unfold carries in Hc. simpl in Hc.
  destruct Hc as [H|[H|[H|[]]]]; discriminate H.
Qed.

(** C3, amended. Whenever [execute] returns, the result is one of two
    dicts: status ["success"] with the whole accumulated transcript under
    ["messages"] and the metadata, or status ["failure"] with an error string
    and the metadata; the failure result holds no transcript and neither
    holds the context map. *)
Theorem execute_result_shape
    (World : Type)
    (client_run : World -> Agent.t -> list dict -> dict -> (exn + Response.t) * World)
    (fuel : nat) (self : Blueprint) (env : Env) (w w' : World)
    (result : dict) (ts : list Turn) :
  execute client_run fuel self env w = Some (Returned result, ts, w') ->
  (exists user_query,
      user_input env = inr user_query
      /\ result =
         [ ("status", VStr "success");
           ("messages",
            VList (map VDict (user_message user_query :: flat_map new_messages ts)));
           ("metadata", VDict metadata) ])
  \/ (exists error,
         result =
         [ ("status", VStr "failure"); ("error", VStr error);
           ("metadata", VDict metadata) ]).
Proof.
  intros H. apply execute_Returned in H as [(q & Hq & ->)|(error & ->)].
  - left. exists q. split; [assumption|reflexivity].
  - right. exists error. reflexivity.
Qed.

Lemma any_sentinel_iterable (ms : list dict) :
  forallb iterable_content ms = true -> exists b, any_sentinel ms = inr b.
Proof.
  induction ms as [|m ms IH]; simpl; [eauto|].
  intros H. apply andb_prop in H as [Hm Hms].
  unfold iterable_content, Dict.get_default in *.
  destruct (py_in sentinel
              match Dict.get "content" m with Some v => v | None => VStr EmptyString end)
    as [e|[]] eqn:E; eauto.
  destruct (Dict.get "content" m) as [[| | | | |]|]; discriminate.
Qed.

Lemma after_run_no_agent (st : Locals) (r : Response.t) (b : bool) :
  Response.agent r = None ->
  any_sentinel (messages st ++ kept_messages (Response.messages r)) = inr b ->
  after_run st (inr r) = Break (after_last_turn st r).
Proof.
  intros Ha Hs. unfold after_run. rewrite Ha, append_messages_app, Hs.
  now destruct b.
Qed.


(** C1, as stated, fails: the course advisor finalises, the executor
    reports the payload as a tool message and the model's answer after it,
    and names no next agent; the session ends with the success result, and
    the content of the last message of its transcript is the answer, not the
    payload. *)
Lemma finalise_payload_not_last :
  exists T ts w',
    execute scripted 2 demo_blueprint demo_env [handoff_reply; final_and_answer_reply]
       = Some (Returned (success T), ts, w')
    /\ call_function demo_blueprint course_advisor_finalise demo_context
       = RStr (_course_advisor_finalise demo_context)
    /\ reports final_and_answer_response (_course_advisor_finalise demo_context)
    /\ last_content T <> Some (VStr (_course_advisor_finalise demo_context)).
Proof.
  exists [ user_message demo_query; handoff_message; payload_message;
           [("role", VStr "assistant"); ("content", VStr "You are welcome.")] ].
  eexists _, _.
  split; [vm_compute; reflexivity|].
  split; [reflexivity|]. split.
  - eexists. split; [left; reflexivity|reflexivity].
  - vm_compute. discriminate.
Qed.

Lemma success_inj (T1 T2 : list dict) : success T1 = success T2 -> T1 = T2.
Proof.
  unfold success. intros [= H]. revert T2 H.
  induction T1 as [|x T1 IH]; intros [|y T2] H; try discriminate; [reflexivity|].
  injection H as -> H. f_equal. now apply IH.
Qed.

(** C1, amended. [execute] never appends a payload itself: when a session
    ends with the success result and the last message the final response
    produced with a ['content'] key holds the payload of a finalise function
    as its content, that message is the last of the returned transcript and
    its content is the payload, character for character. *)
Theorem finalise_payload_last_when_reported_last
    (World : Type)
    (client_run : World -> Agent.t -> list dict -> dict -> (exn + Response.t) * World)
    (fuel : nat) (self : Blueprint) (env : Env) (w w' : World)
    (T : list dict) (ts : list Turn) (t : Turn)
    (f : AgentFunction) (c : dict) (payload : string) (before : list dict) (msg : dict) :
  execute client_run fuel self env w = Some (Returned (success T), ts ++ [t], w') ->
  call_function self f c = RStr payload ->
  new_messages t = before ++ [msg] ->
  Dict.get "content" msg = Some (VStr payload) ->
  (exists T0, T = T0 ++ [msg]) /\ last_content T = Some (VStr payload).
Proof.
  intros Hx _ Hnew Hc.
  apply execute_Returned in Hx as [(q & _ & Hs)|(error & Hs)]; [|discriminate].
  assert (HT : T = user_message q :: flat_map new_messages (ts ++ [t])).
  { now apply success_inj. }
  rewrite flat_map_app in HT. simpl in HT. rewrite app_nil_r, Hnew in HT.
  assert (HT' : T = (user_message q :: flat_map new_messages ts ++ before) ++ [msg]).
  { rewrite HT. simpl. now rewrite <- app_assoc. }
  split; [eauto|].
  rewrite HT'. unfold last_content. now rewrite rev_unit.
Qed.

(** ** The finalisation and handoff functions *)

Lemma payload_fields (content : string) (c : dict) :
  well_formed (VDict c) = true ->
  let payload := json_dumps (VDict [("content", VStr content);
                                    ("context_variables", VDict c)]) in
  payload_field "content" payload = Some (VStr content)
  /\ payload_field "context_variables" payload = Some (VDict c).
Proof.
  intros Hw payload. unfold payload_field, payload.
  rewrite json_loads_dumps; [split; reflexivity|].
  change (well_formed (VDict [("content", VStr content); ("context_variables", VDict c)]))
    with (true && (true && (well_formed (VDict c) && true))).
  now rewrite Hw.
Qed.

Lemma py_eq_str_iff (v : option value) (s : string) :
  py_eq_str v s = true <-> v = Some (VStr s).
Proof.
  unfold py_eq_str. destruct v as [[| | |t| |]|]; split; try discriminate.
  - intros H. apply String.eqb_eq in H. now subst.
  - intros [= ->]. apply String.eqb_refl.
Qed.

Lemma finalise_response_not_haiku (c : dict) :
  _finalise_response c <> _university_poet_haiku.
Proof. discriminate. Qed.


(** C10. The payload of each finalise function, and of the shared
    [_finalise_response], has in its ['context_variables'] field exactly the
    context map the function received. *)
Theorem finalise_embeds_context (c : dict) :
  well_formed (VDict c) = true ->
  payload_field "context_variables" (_course_advisor_finalise c) = Some (VDict c)
  /\ payload_field "context_variables" (_university_poet_finalise c) = Some (VDict c)
  /\ payload_field "context_variables" (_scheduling_assistant_finalise c) = Some (VDict c)
  /\ payload_field "context_variables" (_finalise_response c) = Some (VDict c).
Proof.
  intros Hw.
  pose proof (proj2 (payload_fields _university_poet_haiku c Hw)) as Hhaiku.
  pose proof (proj2 (payload_fields (_finalise_response c) c Hw)) as Hplain.
  pose proof (proj2 (payload_fields closing_message c Hw)) as Hclosing.
  split; [exact Hplain|]. split; [|split; [exact Hplain|exact Hclosing]].
  unfold _university_poet_finalise.
  destruct (py_eq_str (Dict.get "response_haiku" c) "true"); assumption.
Qed.

(** C6. Each of the dispatcher's three handoff functions returns the agent
    registered under its own fixed name: two calls of the same function with
    equal registries and equal context variables return the same agent,
    whatever the transcripts and active agents of the two sessions. *)
Theorem handoff_depends_only_on_registry (f : AgentFunction) :
  In f (funcs "TriageAgent") ->
  (exists name,
      target f = Some name
      /\ forall self st, invoke self st f = RAgent (Dict.get name (swarm_agents self)))
  /\ forall self1 self2 st1 st2,
       swarm_agents self1 = swarm_agents self2 ->
       context_variables st1 = context_variables st2 ->
       invoke self1 st1 f = invoke self2 st2 f.
Proof.
  intros Hin. simpl in Hin.
  destruct Hin as [<-|[<-|[<-|[]]]]; (split; [eexists; split; reflexivity|]);
    intros self1 self2 st1 st2 Hreg _; unfold invoke; simpl;
    unfold _triage_to_course_advisor, _triage_to_university_poet,
      _triage_to_scheduling_assistant; now rewrite Hreg.
Qed.

(** ** The theorems at the concrete session *)

Lemma transcript_append_only_witness :
  while_loop scripted 2 [handoff_reply; final_reply] demo_st0
    = Some (Broke demo_st2, demo_turns, [])
  /\ nth_error (transcripts demo_turns (Broke demo_st2)) 1 = Some (messages demo_st1)
  /\ nth_error (transcripts demo_turns (Broke demo_st2)) 2 = Some (messages demo_st2)
  /\ messages demo_st1
     = messages demo_st0 ++ flat_map new_messages (firstn 1 demo_turns)
  /\ (exists new, messages demo_st2 = messages demo_st1 ++ new)
  /\ nth_error (messages demo_st2) 1 = Some handoff_message.
Proof.
  pose proof (transcript_append_only _ scripted 2 [handoff_reply; final_reply] []
                demo_st0 (Broke demo_st2) demo_turns eq_refl
                1 (messages demo_st1) eq_refl) as [H1 H2].
  specialize (H2 2 (messages demo_st2) (le_S 1 1 (le_n 1)) eq_refl).
  split; [reflexivity|]. split; [reflexivity|]. split; [reflexivity|].
  exact (conj H1 (conj (proj1 H2) (proj2 H2 1 handoff_message eq_refl))).
Defined.

Lemma executor_error_is_fatal_witness :
  scripted [failing_reply] (active_agent demo_st1) (messages demo_st1)
    (context_variables demo_st1) = (inl connection_lost, [])
  /\ while_loop scripted 1 [failing_reply] demo_st1
     = Some (Returns (failure "Error during interaction: connection lost"),
             [turn_of demo_st1 failing_reply], []).
Proof.
  split; [reflexivity|].
  exact (proj1 (executor_error_is_fatal _ scripted [failing_reply] [] demo_st1
                  connection_lost eq_refl) 0).
Defined.

Lemma context_replaced_only_on_handoff_witness :
  loop_body scripted [handoff_reply] demo_st0
    = (Continue demo_st1, turn_of demo_st0 handoff_reply, [])
  /\ turn_reply (turn_of demo_st0 handoff_reply) = inr handoff_response
  /\ context_variables demo_st1 = Response.context_variables handoff_response.
Proof.
  split; [reflexivity|]. split; [reflexivity|].
  exact (proj1 (context_replaced_only_on_handoff _ scripted [handoff_reply] []
                  demo_st0 (Continue demo_st1) (turn_of demo_st0 handoff_reply)
                  handoff_response eq_refl eq_refl)
               demo_st1 (or_introl eq_refl)).
Defined.

Lemma only_content_messages_appended_witness :
  execute scripted 2 demo_blueprint demo_env [handoff_reply; final_reply]
    = Some (Returned (success (messages demo_st2)), demo_turns, [])
  /\ Dict.get "messages" (success (messages demo_st2))
     = Some (VList (map VDict (messages demo_st2)))
  /\ has_content (VDict payload_message) = true.
Proof.
  split; [vm_compute; reflexivity|]. split; [reflexivity|].
  exact (proj2 (proj2 (only_content_messages_appended _ scripted) 2 demo_blueprint
                  demo_env [handoff_reply; final_reply]
                  (success (messages demo_st2)) demo_turns []
                  (map VDict (messages demo_st2)) demo_session eq_refl)
               (VDict payload_message)
               (or_intror (or_intror (or_introl eq_refl)))).
Defined.

Lemma execute_result_shape_witness :
  execute scripted 2 demo_blueprint demo_env [handoff_reply; failing_reply]
    = Some (Returned (failure "Error during interaction: connection lost"),
            [turn_of demo_st0 handoff_reply; turn_of demo_st1 failing_reply], [])
  /\ ((exists user_query,
          user_input demo_env = inr user_query
          /\ failure "Error during interaction: connection lost" =
             [ ("status", VStr "success");
               ("messages",
                VList (map VDict
                         (user_message user_query
                            :: flat_map new_messages
                                 [turn_of demo_st0 handoff_reply;
                                  turn_of demo_st1 failing_reply])));
               ("metadata", VDict metadata) ])
      \/ (exists error,
             failure "Error during interaction: connection lost" =
             [ ("status", VStr "failure"); ("error", VStr error);
               ("metadata", VDict metadata) ])).
Proof.
  split; [vm_compute; reflexivity|].
  apply (execute_result_shape _ scripted 2 demo_blueprint demo_env
           [handoff_reply; failing_reply] []).
  vm_compute. reflexivity.
Defined.


Lemma finalise_payload_last_when_reported_last_witness :
  execute scripted 2 demo_blueprint demo_env [handoff_reply; final_reply]
    = Some (Returned (success (messages demo_st2)),
            [turn_of demo_st0 handoff_reply] ++ [turn_of demo_st1 final_reply], [])
  /\ call_function demo_blueprint course_advisor_finalise demo_context
     = RStr (_course_advisor_finalise demo_context)
  /\ new_messages (turn_of demo_st1 final_reply) = [] ++ [payload_message]
  /\ Dict.get "content" payload_message
     = Some (VStr (_course_advisor_finalise demo_context))
  /\ last_content (messages demo_st2) = Some (VStr (_course_advisor_finalise demo_context)).
Proof.
  split; [exact demo_session|]. split; [reflexivity|].
  split; [reflexivity|]. split; [reflexivity|].
  exact (proj2 (finalise_payload_last_when_reported_last _ scripted 2 demo_blueprint
                  demo_env [handoff_reply; final_reply] [] (messages demo_st2)
                  [turn_of demo_st0 handoff_reply] (turn_of demo_st1 final_reply)
                  course_advisor_finalise demo_context
                  (_course_advisor_finalise demo_context) [] payload_message
                  demo_session eq_refl eq_refl eq_refl)).
Defined.


Lemma finalise_embeds_context_witness :
  well_formed (VDict demo_context) = true
  /\ payload_field "context_variables" (_course_advisor_finalise demo_context)
     = Some (VDict demo_context).
Proof.
  split; [reflexivity|].
  exact (proj1 (finalise_embeds_context demo_context eq_refl)).
Defined.

Lemma handoff_depends_only_on_registry_witness :
  In triage_to_course_advisor (funcs "TriageAgent")
  /\ swarm_agents demo_blueprint = swarm_agents demo_blueprint
  /\ context_variables demo_st1 = context_variables demo_st2
  /\ invoke demo_blueprint demo_st1 triage_to_course_advisor
     = invoke demo_blueprint demo_st2 triage_to_course_advisor.
Proof.
  split; [left; reflexivity|]. split; [reflexivity|]. split; [reflexivity|].
  exact (proj2 (handoff_depends_only_on_registry triage_to_course_advisor
                  (or_introl eq_refl))
               demo_blueprint demo_blueprint demo_st1 demo_st2 eq_refl eq_refl).
Defined.

(** * Further properties of the code *)

(** ** The turns of a session *)

Section Traces.

Variable World : Type.
Variable client_run :
  World -> Agent.t -> list dict -> dict -> (exn + Response.t) * World.

Lemma Run_first_turn w st ts ex w' :
  Run client_run w st ts ex w' ->
  exists t rest, ts = t :: rest /\ t = turn_of st (turn_reply t).
Proof.
  destruct 1 as [w st st' t w' E|w st result t w' E|w st e t w' E
                |w st st' t w1 ts ex w' E _];
    apply loop_body_turn in E as (_ & Ht & _); eauto.
Qed.

(** Each turn but the last got a response naming the agent of the next
    turn, and the next turn starts from the context [updated_context]
    gives. *)
Lemma Run_consecutive w st ts ex w' :
  Run client_run w st ts ex w' ->
  forall pre t u post,
    ts = pre ++ t :: u :: post ->
    (exists r, turn_reply t = inr r /\ Response.agent r = Some (turn_agent u))
    /\ turn_context u = updated_context (turn_context t) t.
Proof.
  induction 1 as [w st st' t0 w' E|w st result t0 w' E|w st e t0 w' E
                 |w st st' t0 w1 ts ex w' E HR IH];
    intros pre t u post Hts.
  1-3: destruct pre as [|x [|y pre]]; discriminate.
  destruct pre as [|x pre].
  - injection Hts as -> ->.
    apply loop_body_turn in E as (Hfl & Ht & _). symmetry in Hfl.
    apply after_run_Continue in Hfl as (r & a & Hr & Ha & Hact & _ & Hc).
    apply Run_first_turn in HR as (t1 & rest & [= <- <-] & Hu).
    rewrite Hu. simpl. split.
    + exists r. split; [assumption|]. now rewrite Ha, Hact.
    + rewrite Hc. unfold updated_context, names_agent. rewrite Hr, Ha, Ht. reflexivity.
  - injection Hts as -> ->. eapply IH; eauto.
Qed.

Lemma Run_context w st ts ex w' :
  Run client_run w st ts ex w' ->
  forall pre t post,
    ts = pre ++ t :: post ->
    turn_context t = context_after (context_variables st) pre.
Proof.
  intros HR pre. induction pre as [|x pre IH] using rev_ind; intros t post Hts.
  - apply Run_first_turn in HR as (t1 & rest & -> & Ht).
    injection Hts as <- _. now rewrite Ht.
  - rewrite <- app_assoc in Hts. simpl in Hts.
    destruct (Run_consecutive _ _ _ _ _ HR _ _ _ _ Hts) as [_ Hc].
    rewrite Hc, (IH _ _ Hts). unfold context_after.
    now rewrite fold_left_app.
Qed.

End Traces.

(** The context a session holds is never merged: it is the initial one, or
    verbatim the non-empty context of the latest response that brought one. *)
Lemma context_after_cases (c : dict) (ts : list Turn) :
  (context_after c ts = c /\ forallb (fun t => negb (brings_context t)) ts = true)
  \/ exists before u later r,
       ts = before ++ u :: later
       /\ turn_reply u = inr r
       /\ names_agent r = true
       /\ Dict.truthy (Response.context_variables r) = true
       /\ forallb (fun t => negb (brings_context t)) later = true
       /\ context_after c ts = Response.context_variables r.
Proof.
  induction ts as [|x ts IH] using rev_ind.
  - left. split; reflexivity.
  - unfold context_after in *. rewrite fold_left_app. simpl.
    destruct (brings_context x) eqn:Eb.
    + right. unfold brings_context in Eb. unfold updated_context.
      destruct (turn_reply x) as [e|r] eqn:Ex; [discriminate|].
      rewrite Eb. apply andb_prop in Eb as [Ha Ht].
      exists ts, x, [], r. auto 10.
    + assert (Hx : updated_context (fold_left updated_context ts c) x
                   = fold_left updated_context ts c).
      { unfold brings_context in Eb. unfold updated_context.
        destruct (turn_reply x) as [e|r]; [reflexivity|now rewrite Eb]. }
      rewrite Hx.
      destruct IH as [[Hc Hn]|(before & u & later & r & -> & Hu & Ha & Ht & Hl & Hc)].
      * left. split; [assumption|].
        rewrite forallb_app, Hn. simpl. now rewrite Eb.
      * right. exists before, u, (later ++ [x]), r.
        rewrite <- app_assoc. simpl.
        assert (forallb (fun t => negb (brings_context t)) (later ++ [x]) = true)
          by (rewrite forallb_app, Hl; simpl; now rewrite Eb).
        auto 10.
Qed.

(** X1. The driver never picks an agent itself: the first call of the
    executor is made with the agent the loop was entered with, and every
    later call with the agent the response of the turn before named;
    nothing checks that agent against the registry. *)
Theorem agent_follows_executor
    (World : Type)
    (client_run : World -> Agent.t -> list dict -> dict -> (exn + Response.t) * World)
    (fuel : nat) (w w' : World) (st : Locals) (ex : Exit) (ts : list Turn) :
  while_loop client_run fuel w st = Some (ex, ts, w') ->
  (exists t rest, ts = t :: rest /\ turn_agent t = active_agent st)
  /\ forall pre t u post,
       ts = pre ++ t :: u :: post ->
       exists r, turn_reply t = inr r /\ Response.agent r = Some (turn_agent u).
Proof.
  intros H. apply while_loop_Run in H. split.
  - destruct (Run_first_turn _ _ _ _ _ _ _ H) as (t & rest & -> & Ht).
    exists t, rest. split; [reflexivity|]. now rewrite Ht.
  - intros pre t u post Hts.
    exact (proj1 (Run_consecutive _ _ _ _ _ _ _ H _ _ _ _ Hts)).
Qed.

(** X2. The context variables a turn is called with are those the loop was
    entered with, unless an earlier response named an agent and brought a
    non-empty context: then they are, unchanged and whole, the context of
    the latest such response.  Contexts are replaced, never merged, and an
    empty context in a response clears nothing. *)
Theorem context_is_latest_nonempty
    (World : Type)
    (client_run : World -> Agent.t -> list dict -> dict -> (exn + Response.t) * World)
    (fuel : nat) (w w' : World) (st : Locals) (ex : Exit) (ts : list Turn)
    (pre : list Turn) (t : Turn) (post : list Turn) :
  while_loop client_run fuel w st = Some (ex, ts, w') ->
  ts = pre ++ t :: post ->
  (turn_context t = context_variables st
   /\ forallb (fun u => negb (brings_context u)) pre = true)
  \/ exists before u later r,
       pre = before ++ u :: later
       /\ turn_reply u = inr r
       /\ Dict.truthy (Response.context_variables r) = true
       /\ forallb (fun u => negb (brings_context u)) later = true
       /\ turn_context t = Response.context_variables r.
Proof.
  intros H Hts. apply while_loop_Run in H.
  rewrite (Run_context _ _ _ _ _ _ _ H _ _ _ Hts).
  destruct (context_after_cases (context_variables st) pre)
    as [[Hc Hn]|(before & u & later & r & Hp & Hu & _ & Ht & Hl & Hc)].
  - left. split; assumption.
  - right. exists before, u, later, r. repeat split; assumption.
Qed.

(** X3. The loop has no bound on its turns: with an executor whose every
    response names a next agent it never ends, so no amount of fuel makes
    the loop or [execute] return. *)
Theorem loop_unbounded_when_always_handed_off
    (World : Type)
    (client_run : World -> Agent.t -> list dict -> dict -> (exn + Response.t) * World) :
  (forall w agent messages context_variables,
      exists r w',
        client_run w agent messages context_variables = (inr r, w')
        /\ names_agent r = true) ->
  (forall fuel w st, while_loop client_run fuel w st = None)
  /\ forall fuel self env w starting_agent user_query,
       validate_env_vars env = None -> database_setup env = None ->
       user_input env = inr user_query ->
       Dict.get "TriageAgent" (swarm_agents self) = Some starting_agent ->
       execute client_run fuel self env w = None.
Proof.
  intros Hall.
  assert (Hloop : forall fuel w st, while_loop client_run fuel w st = None).
  { induction fuel as [|fuel IH]; intros w st; [reflexivity|].
    simpl. rewrite loop_body_eq.
    destruct (Hall w (active_agent st) (messages st) (context_variables st))
      as (r & w1 & -> & Ha).
    simpl. unfold names_agent in Ha.
    destruct (Response.agent r); [|discriminate].
    now rewrite IH. }
  split; [exact Hloop|].
  intros fuel self env w a q Hv Hd Hq Hreg.
  unfold execute, _ensure_database_setup. now rewrite Hv, Hd, Hq, Hreg, Hloop.
Qed.

(** X4. The executor is called only once everything before the loop has
    succeeded: if [execute] made a turn, or is still in the loop when the
    fuel runs out, then SQLITE_DB_PATH is set and not empty, the database
    setup did not raise, the user's input was read and a TriageAgent is
    registered; and when it made no turn it left the executor's state
    alone. *)
Theorem executor_called_only_after_checks
    (World : Type)
    (client_run : World -> Agent.t -> list dict -> dict -> (exn + Response.t) * World)
    (fuel : nat) (self : Blueprint) (env : Env) (w : World) :
  let ready :=
    (exists path, SQLITE_DB_PATH env = Some path /\ path <> EmptyString)
    /\ database_setup env = None
    /\ (exists user_query, user_input env = inr user_query)
    /\ (exists agent, Dict.get "TriageAgent" (swarm_agents self) = Some agent) in
  (execute client_run fuel self env w = None -> ready)
  /\ forall out ts w',
       execute client_run fuel self env w = Some (out, ts, w') ->
       (ts <> [] -> ready) /\ (ts = [] -> w' = w).
Proof.
  intros ready.
  assert (Hv : validate_env_vars env = None ->
               exists path, SQLITE_DB_PATH env = Some path /\ path <> EmptyString).
  { unfold validate_env_vars. destruct (SQLITE_DB_PATH env) as [[|c p]|];
      try discriminate. intros _. eexists. split; [reflexivity|discriminate]. }
  split.
  - unfold execute, _ensure_database_setup.
    destruct (validate_env_vars env) eqn:Ev; [discriminate|].
    destruct (database_setup env) eqn:Ed; [discriminate|].
    destruct (user_input env) eqn:Eu; [discriminate|].
    destruct (Dict.get "TriageAgent" (swarm_agents self)) eqn:Ea; [|discriminate].
    intros _. unfold ready. eauto 10.
  - intros out ts w' Hx.
    apply execute_inv in Hx as [(-> & -> & _)|(a & q & ex & Hval & Hd & Hq & Hreg & Hl & _)].
    + split; [congruence|reflexivity].
    + split.
      * intros _. unfold ready. eauto 10.
      * intros ->. apply while_loop_Run in Hl.
        apply Run_first_turn in Hl as (t & rest & Hts & _). discriminate.
Qed.

(** X5. The error of a failure result tells the cause.  A missing
    SQLITE_DB_PATH gives its own message whatever else is wrong; a failure
    to read the user's input gives a fixed message that drops the
    exception's own text; a missing TriageAgent gives a third; and an error
    of the executor gives ["Error during interaction: "] followed by
    [str(e)], the raising call being the last turn.  In the first three
    cases the executor was never called. *)
Theorem failure_error_tells_cause
    (World : Type)
    (client_run : World -> Agent.t -> list dict -> dict -> (exn + Response.t) * World)
    (fuel : nat) (self : Blueprint) (env : Env) (w w' : World)
    (error : string) (ts : list Turn) :
  execute client_run fuel self env w = Some (Returned (failure error), ts, w') ->
  (error = "SQLITE_DB_PATH environment variable is required."
   /\ ts = [] /\ validate_env_vars env <> None)
  \/ (error = "Failed to receive user input."
      /\ ts = [] /\ exists e, user_input env = inl e)
  \/ (error = "TriageAgent not found."
      /\ ts = [] /\ Dict.get "TriageAgent" (swarm_agents self) = None)
  \/ (exists pre t e,
         ts = pre ++ [t] /\ turn_reply t = inl e
         /\ error = "Error during interaction: " +++ exn_str e).
Proof.
  intros Hx.
  assert (Hinj : forall a b, Returned (failure a) = Returned (failure b) -> a = b)
    by (intros a b [= H]; exact H).
  unfold execute, _ensure_database_setup in Hx.
  destruct (validate_env_vars env) as [e|] eqn:Ev.
  { injection Hx as He <- _. left. split; [|split; [reflexivity|discriminate]].
    unfold validate_env_vars in Ev.
    destruct (SQLITE_DB_PATH env) as [[|]|]; try discriminate;
      injection Ev as <-; symmetry; exact He. }
  destruct (database_setup env) as [e|] eqn:Ed; [discriminate|].
  destruct (user_input env) as [e|q] eqn:Eu.
  { injection Hx as He <- _. right; left. split; [symmetry; exact He|]. eauto. }
  destruct (Dict.get "TriageAgent" (swarm_agents self)) as [a|] eqn:Ea.
  2:{ injection Hx as He <- _. right; right; left. split; [symmetry; exact He|]. auto. }
  destruct (while_loop client_run fuel w (initial a q)) as [[[ex ts0] w0]|] eqn:El;
    [|discriminate].
  injection Hx as Ho <- _. right; right; right.
  apply while_loop_Run in El.
  destruct ex as [st'|result|e]; simpl in Ho; try discriminate.
  injection Ho as ->.
  clear Ea Eu Ed Ev. revert El. generalize (initial a q). intros st HR.
  remember (Returns (failure error)) as ex eqn:Eex.
  induction HR as [w st st' t w1 E|w st result t w1 E|w st e t w1 E
                  |w st st' t w1 ts ex w2 E HR IH]; try discriminate.
  - injection Eex as ->.
    apply loop_body_turn in E as (Hfl & _ & _). symmetry in Hfl.
    apply after_run_Return in Hfl as (e & Hr & He).
    exists [], t, e. split; [reflexivity|]. split; [assumption|].
    now injection He.
  - destruct (IH Eex) as (pre & t' & e & -> & Hr & He).
    exists (t :: pre), t', e. auto.
Qed.

(** ** The sentinel test *)

Lemma is_prefix_spec (p s : string) :
  is_prefix p s = true <-> exists b, s = p +++ b.
Proof.
  revert s. induction p as [|a p IH]; intros s; simpl.
  - split; [intros _; now exists s|reflexivity].
  - destruct s as [|b s].
    + split; [discriminate|intros [x H]; discriminate H].
    + destruct (Ascii.eqb_spec a b) as [->|Hne].
      * rewrite IH. split; intros [x H]; exists x; [now rewrite H|now injection H].
      * split; [discriminate|]. intros [x [= H _]]. congruence.
Qed.

Lemma is_substring_spec (needle s : string) :
  is_substring needle s = true <-> exists a b, s = a +++ needle +++ b.
Proof.
  induction s as [|c s IH].
  - simpl. destruct (is_prefix needle EmptyString) eqn:E.
    + apply is_prefix_spec in E as [b Hb].
      split; [intros _; now exists EmptyString, b|reflexivity].
    + split; [discriminate|]. intros (a & b & H).
      destruct a; [|discriminate].
      assert (is_prefix needle EmptyString = true)
        by (apply is_prefix_spec; now exists b).
      congruence.
  - cbn [is_substring]. destruct (is_prefix needle (String c s)) eqn:E.
    + apply is_prefix_spec in E as [b Hb].
      split; [intros _; now exists EmptyString, b|reflexivity].
    + rewrite IH. split.
      * intros (a & b & ->). now exists (String c a), b.
      * intros (a & b & H). destruct a as [|x a].
        -- assert (is_prefix needle (String c s) = true)
             by (apply is_prefix_spec; now exists b).
           congruence.
        -- injection H as _ ->. now exists a, b.
Qed.

Lemma any_sentinel_cons (m : dict) (ms : list dict) :
  any_sentinel (m :: ms) =
  match sentinel_in m with
  | inl e => inl e
  | inr true => inr true
  | inr false => any_sentinel ms
  end.
Proof. reflexivity. Qed.

Lemma any_sentinel_false (ms : list dict) :
  any_sentinel ms = inr false <-> Forall (fun x => sentinel_in x = inr false) ms.
Proof.
  induction ms as [|m ms IH].
  - split; [constructor|reflexivity].
  - rewrite any_sentinel_cons. split.
    + destruct (sentinel_in m) as [e|[]] eqn:E; try discriminate.
      intros H. constructor; [assumption|now apply IH].
    + intros H. inversion H as [|? ? Hm Hms]; subst. rewrite Hm. now apply IH.
Qed.

Lemma any_sentinel_stops (ms : list dict) (res : exn + bool) :
  res <> inr false ->
  (any_sentinel ms = res
   <-> exists pre m post,
         ms = pre ++ m :: post
         /\ Forall (fun x => sentinel_in x = inr false) pre
         /\ sentinel_in m = res).
Proof.
  intros Hres. induction ms as [|m ms IH].
  - split.
    + simpl. intros <-. congruence.
    + intros (pre & x & post & H & _). now destruct pre.
  - rewrite any_sentinel_cons. split.
    + destruct (sentinel_in m) as [e|[]] eqn:E.
      * intros <-. exists [], m, ms.
        split; [reflexivity|split; [constructor|assumption]].
      * intros <-. exists [], m, ms.
        split; [reflexivity|split; [constructor|assumption]].
      * intros H. apply IH in H as (pre & x & post & -> & Hpre & Hx).
        exists (m :: pre), x, post.
        split; [reflexivity|split; [constructor; assumption|assumption]].
    + intros (pre & x & post & H & Hpre & Hx).
      destruct pre as [|y pre].
      * injection H as <- <-. rewrite Hx.
        destruct res as [e|[]]; congruence.
      * injection H as <- ->. inversion Hpre as [|? ? Hy Hpre']; subst.
        rewrite Hy. apply IH. exists pre, x, post. auto.
Qed.

Lemma sentinel_in_content (msg : dict) :
  sentinel_in msg =
  py_in sentinel match Dict.get "content" msg with
                 | Some v => v
                 | None => VStr EmptyString
                 end.
Proof. reflexivity. Qed.

(** X6. What the sentinel test does on one message depends on the type of
    its content: on a str it looks for the sentinel as a contiguous
    substring; without a content key it answers False; on a list it looks
    for an element equal to the sentinel, on a dict for a key equal to it;
    on None, a bool or an int it raises TypeError. *)
Theorem sentinel_test_by_content_type (msg : dict) :
  match Dict.get "content" msg with
  | None => sentinel_in msg = inr false
  | Some (VStr s) =>
      exists b, sentinel_in msg = inr b
                /\ (b = true <-> exists x y, s = x +++ sentinel +++ y)
  | Some (VList l) =>
      exists b, sentinel_in msg = inr b /\ (b = true <-> In (VStr sentinel) l)
  | Some (VDict d) =>
      exists b, sentinel_in msg = inr b /\ (b = true <-> Dict.mem sentinel d = true)
  | Some v =>
      sentinel_in msg
      = inl (TypeError ("argument of type '" +++ type_name v +++ "' is not iterable"))
  end.
Proof.
  rewrite sentinel_in_content.
  destruct (Dict.get "content" msg) as [[| b | z | s | l | d]|]; try reflexivity.
  - eexists. split; [reflexivity|]. apply is_substring_spec.
  - eexists. split; [reflexivity|]. rewrite existsb_exists. split.
    + intros (x & Hin & Hx). destruct x; try discriminate.
      apply String.eqb_eq in Hx. now subst.
    + intros Hin. exists (VStr sentinel). split; [assumption|apply String.eqb_refl].
  - eexists. split; [reflexivity|]. reflexivity.
Qed.

(** X7. The sentinel test over a transcript stops at the first message that
    decides it: it answers True when the first message whose own test is
    not False answers True, raises when that message's test raises, and
    answers False when every message's test is False.  So a content of
    None raises only if no earlier message holds the sentinel; a user query
    that holds it settles the test before any other message is looked at. *)
Theorem sentinel_test_stops_at_first_decision (ms : list dict) :
  (any_sentinel ms = inr true
   <-> exists pre m post,
         ms = pre ++ m :: post
         /\ Forall (fun x => sentinel_in x = inr false) pre
         /\ sentinel_in m = inr true)
  /\ (forall e,
        any_sentinel ms = inl e
        <-> exists pre m post,
              ms = pre ++ m :: post
              /\ Forall (fun x => sentinel_in x = inr false) pre
              /\ sentinel_in m = inl e)
  /\ (any_sentinel ms = inr false
      <-> Forall (fun x => sentinel_in x = inr false) ms)
  /\ (forall user_query rest,
        is_substring sentinel user_query = true ->
        any_sentinel (user_message user_query :: rest) = inr true).
Proof.
  split; [|split; [|split]].
  - apply any_sentinel_stops. discriminate.
  - intros e. apply any_sentinel_stops. discriminate.
  - apply any_sentinel_false.
  - intros q rest Hq. rewrite any_sentinel_cons.
    change (sentinel_in (user_message q)) with (inr (is_substring sentinel q) : exn + bool).
    now rewrite Hq.
Qed.

(** ** The payloads of the finalisation functions *)

Lemma escape_app (a b : string) : escape (a +++ b) = escape a +++ escape b.
Proof.
  induction a as [|c a IH]; simpl; [reflexivity|].
  now rewrite IH, append_assoc.
Qed.

Lemma is_substring_app_l (needle a b : string) :
  is_substring needle b = true -> is_substring needle (a +++ b) = true.
Proof.
  rewrite !is_substring_spec. intros (x & y & ->).
  exists (a +++ x), y. now rewrite append_assoc.
Qed.

Lemma is_substring_app_r (needle a b : string) :
  is_substring needle a = true -> is_substring needle (a +++ b) = true.
Proof.
  rewrite !is_substring_spec. intros (x & y & ->).
  exists x, (y +++ b). now rewrite !append_assoc.
Qed.

Lemma is_substring_encode_str (s : string) :
  is_substring sentinel s = true -> is_substring sentinel (encode_str s) = true.
Proof.
  intros H. unfold encode_str.
  apply (is_substring_app_l sentinel (String dquote EmptyString)).
  apply is_substring_app_r.
  apply is_substring_spec in H as (x & y & ->).
  apply is_substring_spec. exists (escape x), (escape y).
  now rewrite !escape_app.
Qed.

Lemma payload_shape (content : string) (c : dict) :
  json_dumps (VDict [("content", VStr content); ("context_variables", VDict c)])
  = "{" +++ encode_str "content" +++ ": " +++ encode_str content +++ ", " +++
    encode_str "context_variables" +++ ": " +++ json_dumps (VDict c) +++ "}".
Proof. reflexivity. Qed.

Lemma payload_has_sentinel (content : string) (c : dict) :
  is_substring sentinel content = true ->
  is_substring sentinel
    (json_dumps (VDict [("content", VStr content); ("context_variables", VDict c)]))
  = true.
Proof.
  intros H. rewrite payload_shape.
  do 3 apply is_substring_app_l. apply is_substring_app_r.
  now apply is_substring_encode_str.
Qed.

Lemma finalise_response_has_sentinel (c : dict) :
  is_substring sentinel (_finalise_response c) = true.
Proof. apply payload_has_sentinel. reflexivity. Qed.

(** A transcript without a content that raises, one of whose messages
    holds the sentinel, passes the sentinel test. *)
Lemma any_sentinel_found (ms : list dict) (m : dict) (p : string) :
  forallb iterable_content ms = true ->
  In m ms -> Dict.get "content" m = Some (VStr p) ->
  is_substring sentinel p = true ->
  any_sentinel ms = inr true.
Proof.
  intros Hit Hin Hc Hp.
  destruct (any_sentinel_iterable ms Hit) as [[] Hb]; [assumption|].
  apply any_sentinel_false in Hb. rewrite Forall_forall in Hb.
  specialize (Hb m Hin). rewrite sentinel_in_content, Hc in Hb.
  simpl in Hb. congruence.
Qed.

(** X8. Whatever the context, the payloads of the course advisor's and the
    scheduling assistant's finalise functions, of the poet's when it does not
    answer with the haiku, and of [_finalise_response] hold the sentinel:
    it survives the two rounds of JSON escaping.  So the sentinel test
    answers True on every transcript that holds such a payload as the content
    of a message and has no content that makes the test raise. *)
Theorem finalise_payload_holds_sentinel (c : dict) :
  is_substring sentinel (_finalise_response c) = true
  /\ is_substring sentinel (_course_advisor_finalise c) = true
  /\ is_substring sentinel (_scheduling_assistant_finalise c) = true
  /\ (Dict.get "response_haiku" c <> Some (VStr "true") ->
      is_substring sentinel (_university_poet_finalise c) = true)
  /\ forall ms m p,
       In p [ _finalise_response c; _course_advisor_finalise c;
              _scheduling_assistant_finalise c ] ->
       forallb iterable_content ms = true ->
       In m ms -> Dict.get "content" m = Some (VStr p) ->
       any_sentinel ms = inr true.
Proof.
  pose proof (finalise_response_has_sentinel c) as H0.
  pose proof (payload_has_sentinel (_finalise_response c) c H0) as H1.
  split; [exact H0|]. split; [exact H1|]. split; [exact H1|]. split.
  - intros Hn. unfold _university_poet_finalise.
    destruct (py_eq_str (Dict.get "response_haiku" c) "true") eqn:E; [|exact H1].
    apply py_eq_str_iff in E. contradiction.
  - intros ms m p Hp Hit Hin Hc.
    apply (any_sentinel_found ms m p Hit Hin Hc).
    destruct Hp as [<-|[<-|[<-|[]]]]; assumption.
Qed.

(** X9. The content of the course advisor's payload is not the closing
    message but a second payload, the one [_finalise_response] returns:
    decoding the content again gives the closing message and, once more, the
    context.  The scheduling assistant's payload is the same string. *)
Theorem finalise_content_is_nested_payload (c : dict) :
  well_formed (VDict c) = true ->
  exists inner,
    payload_field "content" (_course_advisor_finalise c) = Some (VStr inner)
    /\ inner <> closing_message
    /\ payload_field "content" inner = Some (VStr closing_message)
    /\ payload_field "context_variables" inner = Some (VDict c)
    /\ _scheduling_assistant_finalise c = _course_advisor_finalise c.
Proof.
  intros Hw. exists (_finalise_response c).
  destruct (payload_fields (_finalise_response c) c Hw) as [H1 _].
  destruct (payload_fields closing_message c Hw) as [H2 H3].
  split; [exact H1|]. split; [discriminate|].
  split; [exact H2|]. split; [exact H3|reflexivity].
Qed.

(** X10. Serialisation loses nothing: two well-formed values with the same
    [json.dumps] string are equal, and so each finalisation function returns
    different payloads for different contexts. *)
Theorem finalise_payload_determines_context :
  (forall v1 v2,
      well_formed v1 = true -> well_formed v2 = true ->
      json_dumps v1 = json_dumps v2 -> v1 = v2)
  /\ forall c1 c2,
       well_formed (VDict c1) = true -> well_formed (VDict c2) = true ->
       (_finalise_response c1 = _finalise_response c2 -> c1 = c2)
       /\ (_course_advisor_finalise c1 = _course_advisor_finalise c2 -> c1 = c2)
       /\ (_university_poet_finalise c1 = _university_poet_finalise c2 -> c1 = c2)
       /\ (_scheduling_assistant_finalise c1 = _scheduling_assistant_finalise c2
           -> c1 = c2).
Proof.
  split.
  - intros v1 v2 H1 H2 E.
    apply json_loads_dumps in H1. apply json_loads_dumps in H2.
    rewrite E in H1. congruence.
  - intros c1 c2 H1 H2.
    assert (Hfield : forall f : dict -> string,
               (forall c, well_formed (VDict c) = true ->
                          payload_field "context_variables" (f c) = Some (VDict c)) ->
               f c1 = f c2 -> c1 = c2).
    { intros f Hf E. pose proof (Hf c1 H1) as G1. pose proof (Hf c2 H2) as G2.
      rewrite E in G1. congruence. }
    assert (Hplain : forall c, well_formed (VDict c) = true ->
               payload_field "context_variables"
                 (json_dumps (VDict [("content", VStr (_finalise_response c));
                                     ("context_variables", VDict c)]))
               = Some (VDict c))
      by (intros c Hc; exact (proj2 (payload_fields (_finalise_response c) c Hc))).
    split; [|split; [|split]]; apply Hfield; try exact Hplain.
    + intros c Hc. exact (proj2 (payload_fields closing_message c Hc)).
    + intros c Hc. unfold _university_poet_finalise.
      destruct (py_eq_str (Dict.get "response_haiku" c) "true");
        [exact (proj2 (payload_fields _university_poet_haiku c Hc))|exact (Hplain c Hc)].
Qed.

Lemma all_printable_app (a b : string) :
  all_printable (a +++ b) = all_printable a && all_printable b.
Proof.
  induction a as [|c a IH]; simpl; [reflexivity|].
  now rewrite IH, andb_assoc.
Qed.

Lemma escape_char_printable (c : ascii) : all_printable (escape_char c) = true.
Proof. destruct c as [[] [] [] [] [] [] [] []]; reflexivity. Qed.

Lemma escape_printable (s : string) : all_printable (escape s) = true.
Proof.
  induction s as [|c s IH]; simpl; [reflexivity|].
  now rewrite all_printable_app, escape_char_printable, IH.
Qed.

Lemma encode_str_printable (s : string) : all_printable (encode_str s) = true.
Proof.
  unfold encode_str. cbn [all_printable].
  now rewrite all_printable_app, escape_printable.
Qed.

Lemma number_char_printable (c : ascii) :
  Decode.is_number_char c = true -> printable c = true.
Proof. destruct c as [[] [] [] [] [] [] [] []]; intros H; try discriminate H; reflexivity. Qed.

Lemma all_number_printable (s : string) :
  all_number s = true -> all_printable s = true.
Proof.
  induction s as [|c s IH]; simpl; [reflexivity|].
  intros H. apply andb_prop in H as [Hc Hs].
  now rewrite (number_char_printable c Hc), IH.
Qed.

Lemma json_dumps_printable_bounded :
  forall n v, size v <= n -> all_printable (json_dumps v) = true.
Proof.
  induction n as [|n IH]; intros v Hs.
  - destruct v as [| [] | z | s | l | d]; try reflexivity.
    + apply all_number_printable, encode_int_chars.
    + apply encode_str_printable.
    + change (size (VList l)) with (S (size_items l)) in Hs. lia.
    + change (size (VDict d)) with (S (size_members d)) in Hs. lia.
  - destruct v as [| [] | z | s | l | d]; try reflexivity.
    + apply all_number_printable, encode_int_chars.
    + apply encode_str_printable.
    + change (size (VList l)) with (S (size_items l)) in Hs.
      change (json_dumps (VList l)) with (String "[" (dumps_items l)).
      cbn [all_printable]. change (printable "[") with true. cbn [andb].
      assert (Hl : size_items l <= n) by lia. clear Hs.
      induction l as [|x l IHl]; [reflexivity|].
      change (size_items (x :: l)) with (S (size x + size_items l)) in Hl.
      rewrite dumps_items_cons, all_printable_app, IH by lia.
      destruct l as [|y l]; [reflexivity|].
      rewrite all_printable_app, IHl by lia. reflexivity.
    + change (size (VDict d)) with (S (size_members d)) in Hs.
      change (json_dumps (VDict d)) with (String "{" (dumps_members d)).
      cbn [all_printable]. change (printable "{") with true. cbn [andb].
      assert (Hl : size_members d <= n) by lia. clear Hs.
      induction d as [|[k x] d IHd]; [reflexivity|].
      change (size_members ((k, x) :: d)) with (S (size x + size_members d)) in Hl.
      rewrite dumps_members_cons, !all_printable_app, encode_str_printable, IH by lia.
      destruct d as [|[k' y] d]; [reflexivity|].
      rewrite all_printable_app, IHd by lia. reflexivity.
Qed.

(** X11. Every payload is made of printable ASCII characters only, whatever
    the context holds: quotes, backslashes, control characters such as the
    haiku's line breaks, and characters above ['~'] are all escaped, so a
    payload is a single line. *)
Theorem finalise_payload_printable_ascii (c : dict) :
  (forall v, all_printable (json_dumps v) = true)
  /\ all_printable (_finalise_response c) = true
  /\ all_printable (_course_advisor_finalise c) = true
  /\ all_printable (_university_poet_finalise c) = true
  /\ all_printable (_scheduling_assistant_finalise c) = true
  /\ all_printable _university_poet_haiku = false.
Proof.
  assert (H : forall v, all_printable (json_dumps v) = true)
    by (intros v; exact (json_dumps_printable_bounded (size v) v (le_n _))).
  split; [exact H|]. repeat split; try apply H.
  unfold _university_poet_finalise.
  destruct (py_eq_str (Dict.get "response_haiku" c) "true"); apply H.
Qed.

(** ** Paths *)

Example dirname_examples :
  map Path.dirname
      ["/tmp/test.db"; "test.db"; "a/b/c.db"; "/test.db"; "//x"; "a//b";
       EmptyString; "/"; "a/"; "///a"; "./x.db"]
  = ["/tmp"; EmptyString; "a/b"; "/"; "//"; "a";
     EmptyString; "/"; "a"; "///"; "."].
Proof. reflexivity. Qed.

Example join_examples :
  [ Path.join EmptyString "f.txt"; Path.join "/x" "f.txt"; Path.join "/x/" "f.txt";
    Path.join "x" "/abs" ]
  = ["f.txt"; "/x/f.txt"; "/x/f.txt"; "/abs"].
Proof. reflexivity. Qed.

(** ** [_ensure_database_setup] *)

Lemma is_start_of_refl {A} (l : list A) : is_start_of l l.
Proof. exists []. now rewrite app_nil_r. Qed.

Lemma is_start_of_cons {A} (x : A) (l1 l2 : list A) :
  is_start_of l1 l2 -> is_start_of (x :: l1) (x :: l2).
Proof. intros [rest ->]. now exists rest. Qed.

Lemma is_start_of_nil {A} (l : list A) : is_start_of [] l.
Proof. now exists l. Qed.

Ltac setup_step h H :=
  match type of H with
  | context [perform h ?w ?o] =>
      let e := fresh "e" in
      let w1 := fresh "w" in
      let E := fresh "E" in
      destruct (perform h w o) as [[e|] w1] eqn:E; cbn beta iota in H
  | context [if ?b then _ else _] =>
      let E := fresh "E" in
      destruct b eqn:E; cbn beta iota in H
  | context [read h ?w ?p] =>
      let e := fresh "e" in
      let E := fresh "E" in
      destruct (read h w p) as [e|?script] eqn:E; cbn beta iota in H
  end.

Lemma planned_dir_spec {W} (h : Host W) (w : W) (p : string) :
  planned_dir h w p =
  if match Path.dirname p with
     | EmptyString => false
     | String _ _ => negb (isdir h w (Path.dirname p))
     end
  then Some (Path.dirname p) else None.
Proof.
  unfold planned_dir. destruct (Path.dirname p) as [|c d]; [reflexivity|].
  now destruct (isdir h w (String c d)).
Qed.

Ltac choose_sample h :=
  match goal with
  | |- context [executescript ?s] => exists (Some (sample_data_path h, s))
  | |- context [read_file ?p] => exists (Some (p, EmptyString))
  | |- _ => exists (@None (string * string))
  end.

Ltac culprit :=
  match goal with
  | |- exists done o, ?l = done ++ [o] /\ _ =>
      exists (removelast l), (last l close); split; [reflexivity|];
      cbn [last]; unfold raised_by;
      first [ left; do 2 eexists; eassumption
            | right; do 2 eexists; split; [reflexivity|eassumption] ]
  end.


(** X13. The setup never touches a database that is there: if it attempted
    any operation, then SQLITE_DB_PATH was set and no file was at that path;
    with the file present it returns at once and leaves the world as it
    was, and with the variable unset it raises TypeError before any
    operation. *)
Theorem setup_acts_only_on_missing_database {W} (h : Host W)
    (sqlite_db_path : option string) (w w' : W) (r : exn + unit) (ops : list Op) :
  Database._ensure_database_setup h sqlite_db_path w = (r, ops, w') ->
  (ops <> [] ->
   exists p, sqlite_db_path = Some p /\ isfile h w p = false)
  /\ (forall p, sqlite_db_path = Some p -> isfile h w p = true ->
                r = inr tt /\ ops = [] /\ w' = w)
  /\ (sqlite_db_path = None ->
      exists e, r = inl e /\ exn_class e = "TypeError" /\ ops = [] /\ w' = w).
Proof.
  intros H. split; [|split].
  - intros Hops. destruct sqlite_db_path as [p|].
    + exists p. split; [reflexivity|].
      destruct (isfile h w p) eqn:Hf; [|reflexivity].
      unfold Database._ensure_database_setup, bind, test, ret in H.
      rewrite Hf in H. cbn in H. injection H as _ <- _. congruence.
    + cbn in H. injection H as _ <- _. congruence.
  - intros p -> Hf.
    unfold Database._ensure_database_setup, bind, test, ret in H.
    rewrite Hf in H. cbn in H. injection H as <- <- <-. auto.
  - intros ->. cbn in H. injection H as <- <- <-. eexists. auto.
Qed.


Lemma upto_last_slash_start (p : string) :
  exists rest, p = Path.upto_last_slash p +++ rest.
Proof.
  induction p as [|c p [rest IH]]; [now exists EmptyString|].
  cbn [Path.upto_last_slash].
  destruct (Path.has_slash p).
  - exists rest. simpl. now rewrite <- IH.
  - destruct (Path.is_slash c); [exists p|exists (String c p)]; reflexivity.
Qed.

Lemma rstrip_slashes_start (s : string) :
  exists rest, s = Path.rstrip_slashes s +++ rest.
Proof.
  induction s as [|c s [rest IH]]; [now exists EmptyString|].
  cbn [Path.rstrip_slashes].
  destruct (Path.rstrip_slashes s) as [|x r] eqn:E.
  - destruct (Path.is_slash c).
    + now exists (String c s).
    + exists rest. simpl in *. now rewrite <- IH.
  - exists rest. simpl in *. now rewrite <- IH.
Qed.

Lemma upto_last_slash_empty (p : string) :
  Path.upto_last_slash p = EmptyString <-> Path.has_slash p = false.
Proof.
  induction p as [|c p IH]; [split; reflexivity|].
  cbn [Path.upto_last_slash Path.has_slash].
  destruct (Path.has_slash p).
  - rewrite orb_true_r. split; discriminate.
  - rewrite orb_false_r. destruct (Path.is_slash c); split; try discriminate; reflexivity.
Qed.

Lemma rstrip_slashes_empty (s : string) :
  Path.rstrip_slashes s = EmptyString -> Path.all_slashes s = true.
Proof.
  induction s as [|c s IH]; [reflexivity|].
  cbn [Path.rstrip_slashes Path.all_slashes].
  destruct (Path.rstrip_slashes s) as [|x r]; [|discriminate].
  destruct (Path.is_slash c); [intros _; now apply IH|discriminate].
Qed.

Lemma dirname_start (p : string) : exists rest, p = Path.dirname p +++ rest.
Proof.
  unfold Path.dirname.
  destruct (upto_last_slash_start p) as [rest Hp].
  destruct (Path.upto_last_slash p) as [|c head] eqn:E; [now exists p|].
  destruct (Path.all_slashes (String c head)); [now exists rest|].
  destruct (rstrip_slashes_start (String c head)) as [rest' Hh].
  exists (rest' +++ rest). rewrite <- append_assoc, <- Hh. exact Hp.
Qed.

Lemma dirname_empty (p : string) :
  Path.dirname p = EmptyString <-> Path.has_slash p = false.
Proof.
  rewrite <- upto_last_slash_empty. unfold Path.dirname.
  destruct (Path.upto_last_slash p) as [|c head] eqn:E; [split; reflexivity|].
  destruct (Path.all_slashes (String c head)) eqn:Ea; [split; discriminate|].
  split; [|discriminate].
  intros H. apply rstrip_slashes_empty in H. congruence.
Qed.

(** X15. The setup creates a directory only as its very first operation,
    only for a database file that is missing, and only the directory part of
    the database path, which is a leading part of that path, is not empty
    and was not a directory; for a path without a slash it never creates
    one. *)
Theorem setup_creates_only_the_database_directory {W} (h : Host W) (p : string)
    (w w' : W) (r : exn + unit) (ops : list Op) :
  Database._ensure_database_setup h (Some p) w = (r, ops, w') ->
  (forall d, In (makedirs d) ops ->
     d = Path.dirname p
     /\ d <> EmptyString
     /\ (exists rest, p = d +++ rest)
     /\ isdir h w d = false
     /\ isfile h w p = false
     /\ exists later, ops = makedirs d :: later /\ ~ In (makedirs d) later)
  /\ (Path.has_slash p = false -> forall d, ~ In (makedirs d) ops).
Proof.
  intros H.
  assert (Hmain : forall d, In (makedirs d) ops ->
     d = Path.dirname p
     /\ d <> EmptyString
     /\ (exists rest, p = d +++ rest)
     /\ isdir h w d = false
     /\ isfile h w p = false
     /\ exists later, ops = makedirs d :: later /\ ~ In (makedirs d) later).
  { unfold Database._ensure_database_setup, bind, test, op, ret, read_text in H.
    cbn beta iota in H.
    destruct (isfile h w p) eqn:Hf; cbn beta iota in H;
      [injection H as _ <- _; intros d []|].
    destruct (Path.dirname p) as [|c dir] eqn:Hd; cbn beta iota in H;
      [|destruct (isdir h w (String c dir)) eqn:Hi; cbn [negb] in H; cbn beta iota in H].
    1,2: repeat (setup_step h H); cbn [app] in H; injection H as <- <- <-;
         intros d Hin; cbn [In] in Hin; exfalso; intuition discriminate.
    assert (Hstart : exists rest, p = String c dir +++ rest)
      by (rewrite <- Hd; apply dirname_start).
    repeat (setup_step h H); cbn [app] in H; injection H as <- <- <-;
      intros d Hin; cbn [In] in Hin;
      (destruct Hin as [Hin|Hin]; [|exfalso; intuition discriminate]);
      injection Hin as <-;
      (split; [reflexivity|]); (split; [discriminate|]);
      (split; [exact Hstart|]); (split; [first [reflexivity|assumption]|]);
      (split; [first [reflexivity|assumption]|]);
      eexists; (split; [reflexivity|]); cbn [In]; intuition discriminate. }
  split; [exact Hmain|].
  intros Hs d Hin. apply Hmain in Hin as (-> & Hne & _).
  apply Hne. now apply dirname_empty.
Qed.

(** ** [create_agents] *)

Lemma replace_spaces_no_space (s : string) : has_space (replace_spaces s) = false.
Proof.
  induction s as [|c s IH]; [reflexivity|].
  cbn [replace_spaces has_space]. rewrite IH, orb_false_r.
  destruct (Ascii.eqb_spec c " ") as [->|Hne]; [reflexivity|].
  now apply Ascii.eqb_neq.
Qed.

Lemma replace_spaces_id (s : string) : has_space s = false -> replace_spaces s = s.
Proof.
  induction s as [|c s IH]; [reflexivity|].
  cbn [replace_spaces has_space]. intros H. apply orb_false_elim in H as [Hc Hs].
  now rewrite Hc, IH.
Qed.


Section CreateAgentsFacts.

Context {W : Type}.
Variable h : Host W.
Variable w : W.
Variable ok : string -> bool.
Variable create_agent : pydict Agent.t -> Agent.t -> exn + pydict Agent.t.
Hypothesis Hreg : registers_when ok create_agent.

Lemma create_one_registers (registry : pydict Agent.t) (entry : string * string) :
  create_one create_agent h w registry entry
  = if ok (fst entry) then registry ++ [created h w entry] else registry.
Proof.
  destruct entry as [n d]. unfold create_one, created. cbn [fst snd].
  pose proof (Hreg registry (make_agent n (instructions_for h w n d))) as H.
  cbn [make_agent Agent.name] in H.
  destruct (ok n); [now rewrite H|].
  destruct H as [e ->]. reflexivity.
Qed.

Lemma create_all_registers (entries : list (string * string)) (registry : pydict Agent.t) :
  fold_left (create_one create_agent h w) entries registry
  = registry ++ map (created h w) (filter (fun entry => ok (fst entry)) entries).
Proof.
  revert registry. induction entries as [|entry entries IH]; intros registry.
  - simpl. now rewrite app_nil_r.
  - cbn [fold_left filter]. rewrite create_one_registers, IH.
    destruct (ok (fst entry)); [|reflexivity].
    now rewrite <- app_assoc.
Qed.

End CreateAgentsFacts.



(** ** [interactive_mode] and the exceptions of [execute] *)

Lemma setup_raises_by_operation {W} (h : Host W) (p : string) (w w' : W)
    (e : exn) (ops : list Op) :
  Database._ensure_database_setup h (Some p) w = (inl e, ops, w') ->
  exists done o, ops = done ++ [o] /\ raised_by h o e.
Proof.
  intros H.
  unfold Database._ensure_database_setup, bind, test, op, ret, read_text in H.
  cbn beta iota in H.
  repeat (setup_step h H); cbn [app] in H; try discriminate H;
    injection H as <- <- <-; culprit.
Qed.

Lemma any_sentinel_raises_TypeError (ms : list dict) (e : exn) :
  any_sentinel ms = inl e -> exn_class e = "TypeError".
Proof.
  induction ms as [|m ms IH]; [discriminate|].
  rewrite any_sentinel_cons, sentinel_in_content.
  destruct (Dict.get "content" m) as [[| b | z | s | l | d]|]; cbn [py_in];
    try (intros [= <-]; reflexivity);
    match goal with
    | |- context [if ?c then _ else _] => destruct c; try discriminate; exact IH
    | |- _ => idtac
    end.
Qed.

Lemma Run_Raises {World : Type}
    (client_run : World -> Agent.t -> list dict -> dict -> (exn + Response.t) * World)
    w st ts e w' :
  Run client_run w st ts (Raises e) w' ->
  exists pre t r,
    ts = pre ++ [t] /\ turn_reply t = inr r /\ Response.agent r = None
    /\ any_sentinel (turn_messages t ++ new_messages t) = inl e.
Proof.
  intros HR. remember (Raises e) as ex eqn:Eex.
  induction HR as [w st st' t w1 E|w st result t w1 E|w st e0 t w1 E
                  |w st st' t w1 ts ex w2 E HR IH]; try discriminate.
  - injection Eex as ->.
    apply loop_body_turn in E as (Hfl & Ht & _). symmetry in Hfl.
    apply after_run_Raise in Hfl as (r & Hr & Ha & Hs).
    exists [], t, r. split; [reflexivity|]. split; [assumption|].
    split; [assumption|].
    unfold new_messages, produced. rewrite Hr, Ht. exact Hs.
  - destruct (IH Eex) as (pre & t' & r & -> & Hr & Ha & Hs).
    exists (t :: pre), t', r. auto.
Qed.



(** ** The further properties at concrete inputs *)

Lemma register_registers (ok : string -> bool) : registers_when ok (register ok).
Proof.
  intros registry agent. unfold register.
  destruct (ok (Agent.name agent)); [reflexivity|eauto].
Qed.

Lemma demo_setup :
  Database._ensure_database_setup demo_host (Some demo_db_path) []
  = (inr tt, demo_ops, demo_world_after).
Proof. vm_compute. reflexivity. Qed.

Lemma failing_setup :
  Database._ensure_database_setup failing_host (Some demo_db_path) []
  = (inl disk_error,
     [makedirs "/tmp"; connect demo_db_path; cursor; execute_sql create_courses_sql],
     [makedirs "/tmp"; connect demo_db_path; cursor]).
Proof. vm_compute. reflexivity. Qed.

Lemma agent_follows_executor_witness :
  while_loop scripted 2 [handoff_reply; final_reply] demo_st0
    = Some (Broke demo_st2, demo_turns, [])
  /\ (exists t rest, demo_turns = t :: rest /\ turn_agent t = active_agent demo_st0)
  /\ exists r,
       turn_reply (turn_of demo_st0 handoff_reply) = inr r
       /\ Response.agent r = Some (turn_agent (turn_of demo_st1 final_reply)).
Proof.
  pose proof (agent_follows_executor _ scripted 2 [handoff_reply; final_reply] []
                demo_st0 (Broke demo_st2) demo_turns eq_refl) as [H1 H2].
  split; [reflexivity|]. split; [exact H1|].
  exact (H2 [] (turn_of demo_st0 handoff_reply) (turn_of demo_st1 final_reply) []
            eq_refl).
Defined.

Lemma context_is_latest_nonempty_witness :
  while_loop scripted 2 [handoff_reply; final_reply] demo_st0
    = Some (Broke demo_st2, demo_turns, [])
  /\ ((turn_context (turn_of demo_st1 final_reply) = context_variables demo_st0
       /\ forallb (fun u => negb (brings_context u)) [turn_of demo_st0 handoff_reply]
          = true)
      \/ exists before u later r,
           [turn_of demo_st0 handoff_reply] = before ++ u :: later
           /\ turn_reply u = inr r
           /\ Dict.truthy (Response.context_variables r) = true
           /\ forallb (fun u => negb (brings_context u)) later = true
           /\ turn_context (turn_of demo_st1 final_reply)
              = Response.context_variables r).
Proof.
  split; [reflexivity|].
  exact (context_is_latest_nonempty _ scripted 2 [handoff_reply; final_reply] []
           demo_st0 (Broke demo_st2) demo_turns
           [turn_of demo_st0 handoff_reply] (turn_of demo_st1 final_reply) []
           eq_refl eq_refl).
Defined.

Lemma loop_unbounded_when_always_handed_off_witness :
  while_loop always_handoff 1000 tt demo_st0 = None
  /\ execute always_handoff 1000 demo_blueprint demo_env tt = None.
Proof.
  assert (H : forall w agent messages context_variables,
             exists r w',
               always_handoff w agent messages context_variables = (inr r, w')
               /\ names_agent r = true)
    by (intros w agent messages context_variables;
        exists handoff_response, tt; split; reflexivity).
  pose proof (loop_unbounded_when_always_handed_off _ always_handoff H) as [H1 H2].
  split; [exact (H1 1000 tt demo_st0)|].
  exact (H2 1000 demo_blueprint demo_env tt TriageAgent demo_query
            eq_refl eq_refl eq_refl eq_refl).
Defined.

Lemma executor_called_only_after_checks_witness :
  execute scripted 2 demo_blueprint demo_env [handoff_reply; final_reply]
    = Some (Returned (success (messages demo_st2)), demo_turns, [])
  /\ (exists path, SQLITE_DB_PATH demo_env = Some path /\ path <> EmptyString)
  /\ database_setup demo_env = None
  /\ (exists user_query, user_input demo_env = inr user_query)
  /\ (exists agent, Dict.get "TriageAgent" (swarm_agents demo_blueprint) = Some agent).
Proof.
  split; [exact demo_session|].
  refine (proj1 (proj2 (executor_called_only_after_checks _ scripted 2 demo_blueprint
                          demo_env [handoff_reply; final_reply])
                   (Returned (success (messages demo_st2))) demo_turns []
                   demo_session) _).
  discriminate.
Defined.

Lemma failure_error_tells_cause_witness :
  execute scripted 1 demo_blueprint demo_env [failing_reply]
    = Some (Returned (failure "Error during interaction: connection lost"),
            [turn_of demo_st0 failing_reply], [])
  /\ (("Error during interaction: connection lost"
       = "SQLITE_DB_PATH environment variable is required."
       /\ [turn_of demo_st0 failing_reply] = [] /\ validate_env_vars demo_env <> None)
      \/ ("Error during interaction: connection lost" = "Failed to receive user input."
          /\ [turn_of demo_st0 failing_reply] = []
          /\ exists e, user_input demo_env = inl e)
      \/ ("Error during interaction: connection lost" = "TriageAgent not found."
          /\ [turn_of demo_st0 failing_reply] = []
          /\ Dict.get "TriageAgent" (swarm_agents demo_blueprint) = None)
      \/ (exists pre t e,
             [turn_of demo_st0 failing_reply] = pre ++ [t] /\ turn_reply t = inl e
             /\ "Error during interaction: connection lost"
                = "Error during interaction: " +++ exn_str e)).
Proof.
  split; [vm_compute; reflexivity|].
  apply (failure_error_tells_cause _ scripted 1 demo_blueprint demo_env
           [failing_reply] []).
  vm_compute. reflexivity.
Defined.

Lemma sentinel_test_stops_at_first_decision_witness :
  is_substring sentinel closing_message = true
  /\ any_sentinel [user_message closing_message; [("content", VNone)]] = inr true.
Proof.
  split; [reflexivity|].
  exact (proj2 (proj2 (proj2 (sentinel_test_stops_at_first_decision [])))
           closing_message [[("content", VNone)]] eq_refl).
Defined.

Lemma finalise_payload_holds_sentinel_witness :
  forallb iterable_content (messages demo_st2) = true
  /\ In payload_message (messages demo_st2)
  /\ any_sentinel (messages demo_st2) = inr true.
Proof.
  split; [reflexivity|]. split; [right; right; left; reflexivity|].
  exact (proj2 (proj2 (proj2 (proj2 (finalise_payload_holds_sentinel demo_context))))
           (messages demo_st2) payload_message (_course_advisor_finalise demo_context)
           (or_intror (or_introl eq_refl)) eq_refl
           (or_intror (or_intror (or_introl eq_refl))) eq_refl).
Defined.

Lemma finalise_content_is_nested_payload_witness :
  well_formed (VDict demo_context) = true
  /\ exists inner,
       payload_field "content" (_course_advisor_finalise demo_context)
       = Some (VStr inner)
       /\ inner <> closing_message
       /\ payload_field "content" inner = Some (VStr closing_message)
       /\ payload_field "context_variables" inner = Some (VDict demo_context)
       /\ _scheduling_assistant_finalise demo_context
          = _course_advisor_finalise demo_context.
Proof.
  split; [reflexivity|].
  exact (finalise_content_is_nested_payload demo_context eq_refl).
Defined.

Lemma finalise_payload_determines_context_witness :
  well_formed (VDict demo_context) = true
  /\ well_formed (VDict [("topic", VStr "physics")]) = true
  /\ _course_advisor_finalise demo_context
     <> _course_advisor_finalise [("topic", VStr "physics")].
Proof.
  split; [reflexivity|]. split; [reflexivity|].
  intros E.
  pose proof (proj1 (proj2 (proj2 finalise_payload_determines_context demo_context
                              [("topic", VStr "physics")] eq_refl eq_refl)) E) as H.
  discriminate H.
Defined.


Lemma setup_acts_only_on_missing_database_witness :
  Database._ensure_database_setup demo_host (Some demo_db_path) []
  = (inr tt, demo_ops, demo_world_after)
  /\ demo_ops <> []
  /\ exists p, Some demo_db_path = Some p /\ isfile demo_host [] p = false.
Proof.
  split; [exact demo_setup|]. split; [discriminate|].
  refine (proj1 (setup_acts_only_on_missing_database demo_host (Some demo_db_path)
                   [] demo_world_after (inr tt) demo_ops demo_setup) _).
  discriminate.
Defined.


Lemma setup_creates_only_the_database_directory_witness :
  Database._ensure_database_setup demo_host (Some demo_db_path) []
  = (inr tt, demo_ops, demo_world_after)
  /\ In (makedirs "/tmp") demo_ops
  /\ "/tmp" = Path.dirname demo_db_path
  /\ "/tmp" <> EmptyString
  /\ (exists rest, demo_db_path = "/tmp" +++ rest)
  /\ isdir demo_host [] "/tmp" = false
  /\ isfile demo_host [] demo_db_path = false
  /\ exists later, demo_ops = makedirs "/tmp" :: later /\ ~ In (makedirs "/tmp") later.
Proof.
  split; [exact demo_setup|]. split; [left; reflexivity|].
  exact (proj1 (setup_creates_only_the_database_directory demo_host demo_db_path
                  [] demo_world_after (inr tt) demo_ops demo_setup)
           "/tmp" (or_introl eq_refl)).
Defined.





